(** * Encointer ceremonies pallet: a shallow embedding of [src/lib.rs]

    Storage items of the pallet are finite maps ([gmap]); a substrate
    [double_map] keyed by [(CurrencyCeremony, k)] is a [gmap] keyed by the
    pair.  Reads with [get] return the type's default when the key is
    absent, as substrate's value queries do.  Dispatchables return a
    [result]; hooks are total functions on the state.  Services of other
    pallets (scheduler, currencies, balances) and the signature primitive
    are parameters. *)

From stdpp Require Import base gmap list strings.
From Stdlib Require Import ZArith Lia.

Open Scope Z_scope.

(** ** Basic types *)

Abbreviation AccountId := nat.
Abbreviation CurrencyIdentifier := nat.
(** [CeremonyIndexType] is a [u32]; participant, meetup and attestation
    indices are [u64]; the headcount vote is a [u32]. *)
Abbreviation CeremonyIndexType := Z.
Abbreviation CurrencyCeremony := (nat * Z)%type.

(** The default [AccountId] (all-zero public key). *)
Definition default_account : AccountId := 0%nat.

Definition u32_modulus : Z := 2 ^ 32.
Definition u64_modulus : Z := 2 ^ 64.

(** [u32] subtraction and increment as the release build performs them. *)
Definition u32_sub (a b : Z) : Z := (a - b) mod u32_modulus.
Definition u32_add (a b : Z) : Z := (a + b) mod u32_modulus.
Definition u64_add (a b : Z) : Z := (a + b) mod u64_modulus.

(** [checked_add] on [u64]. *)
Definition u64_checked_add (a b : Z) : option Z :=
  if a + b <? u64_modulus then Some (a + b) else None.

Inductive Reputation :=
  | Unverified
  | UnverifiedReputable
  | VerifiedUnlinked
  | VerifiedLinked.

Global Instance Reputation_eq_dec : EqDecision Reputation.
Proof. solve_decision. Defined.

Inductive CeremonyPhaseType := REGISTERING | ASSIGNING | ATTESTING.

Global Instance CeremonyPhaseType_eq_dec : EqDecision CeremonyPhaseType.
Proof. solve_decision. Defined.

(** ** Storage *)

Record State := mkState {
  participant_registry : gmap (CurrencyCeremony * Z) AccountId;
  participant_index : gmap (CurrencyCeremony * AccountId) Z;
  participant_count : gmap CurrencyCeremony Z;
  participant_reputation : gmap (CurrencyCeremony * AccountId) Reputation;
  meetup_registry : gmap (CurrencyCeremony * Z) (list AccountId);
  meetup_index : gmap (CurrencyCeremony * AccountId) Z;
  meetup_count : gmap CurrencyCeremony Z;
  attestation_registry : gmap (CurrencyCeremony * Z) (list AccountId);
  attestation_index : gmap (CurrencyCeremony * AccountId) Z;
  attestation_count : gmap CurrencyCeremony Z;
  meetup_participant_count_vote : gmap (CurrencyCeremony * AccountId) Z;
  ceremony_reward : Z;
  location_tolerance : Z;
  time_tolerance : Z;
  (** the balances pallet's record of successful [issue] calls *)
  issued : list (CurrencyIdentifier * AccountId * Z)
}.

(** A [Location] is a pair of fixed-point degrees (latitude, longitude),
    kept here as their raw integer representations. *)
Abbreviation Location := (Z * Z)%type.

(** The state of the other pallets read by this one. *)
Record Env := mkEnv {
  current_phase : CeremonyPhaseType;
  current_ceremony_index : CeremonyIndexType;
  currency_identifiers : list CurrencyIdentifier;
  ceremony_master : AccountId;
  bootstrappers : CurrencyIdentifier -> list AccountId;
  locations : CurrencyIdentifier -> list Location
}.

(** Value-query getters: absent keys read as the default. *)
Definition get_participant_reputation (st : State) (cc : CurrencyCeremony) (a : AccountId) : Reputation :=
  default Unverified (participant_reputation st !! (cc, a)).
Definition get_meetup_registry (st : State) (cc : CurrencyCeremony) (m : Z) : list AccountId :=
  default [] (meetup_registry st !! (cc, m)).
Definition get_meetup_index (st : State) (cc : CurrencyCeremony) (a : AccountId) : Z :=
  default 0 (meetup_index st !! (cc, a)).
Definition get_meetup_count (st : State) (cc : CurrencyCeremony) : Z :=
  default 0 (meetup_count st !! cc).
Definition get_attestation_registry (st : State) (cc : CurrencyCeremony) (i : Z) : list AccountId :=
  default [] (attestation_registry st !! (cc, i)).
Definition get_attestation_index (st : State) (cc : CurrencyCeremony) (a : AccountId) : Z :=
  default 0 (attestation_index st !! (cc, a)).
Definition get_attestation_count (st : State) (cc : CurrencyCeremony) : Z :=
  default 0 (attestation_count st !! cc).
Definition get_participant_count (st : State) (cc : CurrencyCeremony) : Z :=
  default 0 (participant_count st !! cc).
Definition get_participant_registry (st : State) (cc : CurrencyCeremony) (i : Z) : AccountId :=
  default default_account (participant_registry st !! (cc, i)).
Definition get_meetup_participant_count_vote (st : State) (cc : CurrencyCeremony) (a : AccountId) : Z :=
  default 0 (meetup_participant_count_vote st !! (cc, a)).

(** Setters used by the operations below. *)
Definition set_reputation (st : State) (r : gmap (CurrencyCeremony * AccountId) Reputation) : State :=
  mkState (participant_registry st) (participant_index st) (participant_count st) r
    (meetup_registry st) (meetup_index st) (meetup_count st)
    (attestation_registry st) (attestation_index st) (attestation_count st)
    (meetup_participant_count_vote st) (ceremony_reward st) (location_tolerance st)
    (time_tolerance st) (issued st).

Definition set_issued (st : State) (l : list (CurrencyIdentifier * AccountId * Z)) : State :=
  mkState (participant_registry st) (participant_index st) (participant_count st)
    (participant_reputation st)
    (meetup_registry st) (meetup_index st) (meetup_count st)
    (attestation_registry st) (attestation_index st) (attestation_count st)
    (meetup_participant_count_vote st) (ceremony_reward st) (location_tolerance st)
    (time_tolerance st) l.

Definition set_participants (st : State) (reg : gmap (CurrencyCeremony * Z) AccountId)
    (idx : gmap (CurrencyCeremony * AccountId) Z) (cnt : gmap CurrencyCeremony Z)
    (rep : gmap (CurrencyCeremony * AccountId) Reputation) : State :=
  mkState reg idx cnt rep
    (meetup_registry st) (meetup_index st) (meetup_count st)
    (attestation_registry st) (attestation_index st) (attestation_count st)
    (meetup_participant_count_vote st) (ceremony_reward st) (location_tolerance st)
    (time_tolerance st) (issued st).

Definition set_meetups (st : State) (reg : gmap (CurrencyCeremony * Z) (list AccountId))
    (idx : gmap (CurrencyCeremony * AccountId) Z) (cnt : gmap CurrencyCeremony Z) : State :=
  mkState (participant_registry st) (participant_index st) (participant_count st)
    (participant_reputation st) reg idx cnt
    (attestation_registry st) (attestation_index st) (attestation_count st)
    (meetup_participant_count_vote st) (ceremony_reward st) (location_tolerance st)
    (time_tolerance st) (issued st).

Definition set_attestations (st : State) (reg : gmap (CurrencyCeremony * Z) (list AccountId))
    (idx : gmap (CurrencyCeremony * AccountId) Z) (cnt : gmap CurrencyCeremony Z)
    (votes : gmap (CurrencyCeremony * AccountId) Z) : State :=
  mkState (participant_registry st) (participant_index st) (participant_count st)
    (participant_reputation st)
    (meetup_registry st) (meetup_index st) (meetup_count st)
    reg idx cnt votes (ceremony_reward st) (location_tolerance st)
    (time_tolerance st) (issued st).

(** [Vec::contains] *)
Definition contains (l : list AccountId) (a : AccountId) : bool :=
  existsb (Nat.eqb a) l.

(** [1..=n] *)
Definition range_incl (n : Z) : list Z :=
  map Z.of_nat (seq 1 (Z.to_nat n)).

(** ** Ballot on the number of participants ([ballot_meetup_n_votes]) *)

(** [n_vote_candidates.iter().position(|&(n, _c)| n == this_vote)] *)
Fixpoint position_vote (v : Z) (l : list (Z * Z)) : option nat :=
  match l with
  | [] => None
  | (n, _) :: l' => if n =? v then Some 0%nat else S <$> position_vote v l'
  end.

(** One iteration of the tally loop: bump the bucket of [this_vote], or
    [insert(0, (this_vote, 1))]. *)
Definition tally_step (cands : list (Z * Z)) (this_vote : Z) : list (Z * Z) :=
  match position_vote this_vote cands with
  | Some idx => alter (fun nc : Z * Z => (nc.1, u32_add nc.2 1)) idx cands
  | None => (this_vote, 1) :: cands
  end.

Definition tally_votes (st : State) (cc : CurrencyCeremony) (ps : list AccountId) : list (Z * Z) :=
  fold_left (fun cands p =>
    let this_vote := get_meetup_participant_count_vote st cc p in
    if 0 <? this_vote then tally_step cands this_vote else cands) ps [].

(** [sort_by(|a, b| b.1.cmp(&a.1))]: Rust's [sort_by] is stable, and all
    stable sorts by descending count give the same list; here a stable
    insertion sort. *)
Fixpoint insert_by_count_desc (x : Z * Z) (l : list (Z * Z)) : list (Z * Z) :=
  match l with
  | [] => [x]
  | y :: l' => if y.2 <? x.2 then x :: y :: l' else y :: insert_by_count_desc x l'
  end.

Definition sort_by_count_desc (l : list (Z * Z)) : list (Z * Z) :=
  fold_left (fun acc x => insert_by_count_desc x acc) l [].

Definition ballot_meetup_n_votes (st : State) (cid : CurrencyIdentifier) (cindex : CeremonyIndexType)
    (meetup_idx : Z) : option (Z * Z) :=
  let meetup_participants := get_meetup_registry st (cid, cindex) meetup_idx in
  let n_vote_candidates := tally_votes st (cid, cindex) meetup_participants in
  match n_vote_candidates with
  | [] => None
  | _ =>
    match sort_by_count_desc n_vote_candidates with
    | [] => None
    | (n, c) :: _ => if c <? 3 then None else Some (n, c)
    end
  end.

(** ** Reward issuance ([issue_rewards]) *)

Section Rewards.

(** [encointer_balances::issue]: succeeds or fails depending on the
    ledger (here: its record of past issuances). *)
Variable ledger_issue : list (CurrencyIdentifier * AccountId * Z) -> CurrencyIdentifier -> AccountId -> Z -> bool.

(** The reciprocity loop: how many of [attestations] list [p] in their own bundle. *)
Definition count_has_attested (st : State) (cc : CurrencyCeremony) (p : AccountId)
    (attestations : list AccountId) : Z :=
  fold_left (fun has_attested w =>
    let w_attestations := get_attestation_registry st cc (get_attestation_index st cc w) in
    if contains w_attestations p then u32_add has_attested 1 else has_attested)
    attestations 0.

(** The body of the loop over the meetup's participants. *)
Definition reward_participant (cid : CurrencyIdentifier) (cindex : CeremonyIndexType)
    (n_confirmed n_honest_participants : Z) (st : State) (p : AccountId) : State :=
  let cc := (cid, cindex) in
  if negb (get_meetup_participant_count_vote st cc p =? n_confirmed) then st else
  let attestations := get_attestation_registry st cc (get_attestation_index st cc p) in
  if (Z.of_nat (length attestations) <? u32_sub n_honest_participants 1)
     || (length attestations =? 0)%nat then st else
  let has_attested := count_has_attested st cc p attestations in
  if has_attested <? u32_sub n_honest_participants 1 then st else
  let reward := ceremony_reward st in
  if ledger_issue (issued st) cid p reward then
    set_reputation (set_issued st (issued st ++ [(cid, p, reward)]))
      (<[(cc, p) := VerifiedUnlinked]> (participant_reputation st))
  else st.

(** One iteration of [for m in 1..=meetup_count]. *)
Definition reward_meetup (st : State) (cid : CurrencyIdentifier) (cindex : CeremonyIndexType) (m : Z) : State :=
  match ballot_meetup_n_votes st cid cindex m with
  | None => st
  | Some (n_confirmed, n_honest_participants) =>
    let meetup_participants := get_meetup_registry st (cid, cindex) m in
    fold_left (reward_participant cid cindex n_confirmed n_honest_participants)
      meetup_participants st
  end.

Definition issue_rewards (env : Env) (st : State) : State :=
  if decide (current_phase env <> REGISTERING) then st else
  fold_left (fun st cid =>
    let cindex := u32_sub (current_ceremony_index env) 1 in
    let meetup_count := get_meetup_count st (cid, cindex) in
    fold_left (fun st m => reward_meetup st cid cindex m) (range_incl meetup_count) st)
    (currency_identifiers env) st.

End Rewards.


(** ** Meetup assignment ([assign_meetups]) *)

(** [meetups[i].push(p)]; [None] is the out-of-bounds panic. *)
Definition vec_push_at {A} (ms : list (list A)) (i : nat) (p : A) : option (list (list A)) :=
  if (i <? length ms)%nat then Some (alter (fun m => m ++ [p]) i ms) else None.

(** [meetup_n_rep[i] += 1] *)
Definition vec_incr_at (v : list nat) (i : nat) : option (list nat) :=
  if (i <? length v)%nat then Some (alter S i v) else None.

(** [Vec::remove(i)]: panics ([None]) when [i >= len]. *)
Definition vec_remove {A} (l : list A) (i : nat) : option (list A) :=
  if (i <? length l)%nat then Some (delete i l) else None.

(** [for (i, p) in reputables.iter().enumerate()], from position [i]. *)
Fixpoint assign_reputables (n_meetups i : nat) (reputables : list AccountId)
    (meetups : list (list AccountId)) (meetup_n_rep : list nat)
    : option (list (list AccountId) * list nat) :=
  match reputables with
  | [] => Some (meetups, meetup_n_rep)
  | p :: rest =>
    meetups ← vec_push_at meetups (i mod n_meetups) p;
    meetup_n_rep ← vec_incr_at meetup_n_rep (i mod n_meetups);
    assign_reputables n_meetups (S i) rest meetups meetup_n_rep
  end.

(** [for (i, p) in newbies.iter().enumerate()], from position [i]. *)
Fixpoint assign_newbies (n_meetups i : nat) (newbies : list AccountId)
    (meetups : list (list AccountId)) (meetup_n_rep : list nat)
    : option (list (list AccountId)) :=
  match newbies with
  | [] => Some meetups
  | p :: rest =>
    let idx := (i mod n_meetups)%nat in
    m ← meetups !! idx;
    r ← meetup_n_rep !! idx;
    if (length m <? r * 4 / 3)%nat then
      meetups ← vec_push_at meetups (i mod n_meetups) p;
      assign_newbies n_meetups (S i) rest meetups meetup_n_rep
    else assign_newbies n_meetups (S i) rest meetups meetup_n_rep
  end.

(** [toosmall]: the positions, from [i], of the meetups with fewer than 3 members. *)
Fixpoint too_small_from {A} (i : nat) (meetups : list (list A)) : list nat :=
  match meetups with
  | [] => []
  | m :: rest =>
    if (length m <? 3)%nat then i :: too_small_from (S i) rest else too_small_from (S i) rest
  end.

(** [for i in toosmall { meetups.remove(i); }] *)
Fixpoint remove_all {A} (meetups : list A) (toosmall : list nat) : option (list A) :=
  match toosmall with
  | [] => Some meetups
  | i :: rest => meetups ← vec_remove meetups i; remove_all meetups rest
  end.

(** The assignment for one community, from the reputables and newbies in
    registration order: the number of meetups [n_meetups] and the meetups
    kept after the purge of small ones. *)
Definition assign_meetups_cid (reputables newbies : list AccountId)
    : option (nat * list (list AccountId)) :=
  let n := length reputables in
  let n := (n + Nat.min (length newbies) (n / 4))%nat in
  let n_meetups := (n / 12 + 1)%nat in
  let meetups := repeat [] n_meetups in
  let meetup_n_rep := repeat 0%nat n_meetups in
  '(meetups, meetup_n_rep) ← assign_reputables n_meetups 0 reputables meetups meetup_n_rep;
  meetups ← assign_newbies n_meetups 0 newbies meetups meetup_n_rep;
  let toosmall := too_small_from 0 meetups in
  meetups ← remove_all meetups toosmall;
  Some (n_meetups, meetups).

(** The split of the registered participants [1..=pcount] into
    reputables and newbies. *)
Definition split_participants (env : Env) (st : State) (cid : CurrencyIdentifier)
    (cindex : CeremonyIndexType) : list AccountId * list AccountId :=
  let cc := (cid, cindex) in
  fold_left (fun '(reputables, newbies) p =>
    let participant := get_participant_registry st cc p in
    if bool_decide (get_participant_reputation st cc participant = UnverifiedReputable)
       || contains (bootstrappers env cid) participant
    then (reputables ++ [participant], newbies)
    else (reputables, newbies ++ [participant]))
    (range_incl (get_participant_count st cc)) ([], []).

(** [for (i, m) in meetups.iter().enumerate()] committing meetup [i + 1]. *)
Fixpoint commit_meetups_from (cc : CurrencyCeremony) (i : nat) (meetups : list (list AccountId))
    (st : State) : State :=
  match meetups with
  | [] => st
  | m :: rest =>
    let idx := Z.of_nat (i + 1) in
    let mindex := fold_left (fun mi p => <[(cc, p) := idx]> mi) m (meetup_index st) in
    let st := set_meetups st (<[(cc, idx) := m]> (meetup_registry st)) mindex (meetup_count st) in
    commit_meetups_from cc (S i) rest st
  end.

Definition commit_meetups (cc : CurrencyCeremony) (n_meetups : nat) (meetups : list (list AccountId))
    (st : State) : State :=
  match meetups with
  | [] => st
  | _ =>
    let st := set_meetups st (meetup_registry st) (meetup_index st)
                (<[cc := Z.of_nat n_meetups]> (meetup_count st)) in
    commit_meetups_from cc 0 meetups st
  end.

Definition assign_meetups_for (env : Env) (st : State) (cid : CurrencyIdentifier) : option State :=
  let cindex := current_ceremony_index env in
  let '(reputables, newbies) := split_participants env st cid cindex in
  '(n_meetups, meetups) ← assign_meetups_cid reputables newbies;
  Some (commit_meetups (cid, cindex) n_meetups meetups st).

(** [None] when the hook panics. *)
Fixpoint assign_meetups_loop (env : Env) (cids : list CurrencyIdentifier) (st : State) : option State :=
  match cids with
  | [] => Some st
  | cid :: rest => st ← assign_meetups_for env st cid; assign_meetups_loop env rest st
  end.

Definition assign_meetups (env : Env) (st : State) : option State :=
  assign_meetups_loop env (currency_identifiers env) st.

(** ** Purge ([purge_registry]) *)

(** [remove_prefix(cc)] on a double map. *)
Definition remove_prefix {K V} `{Countable K} (cc : CurrencyCeremony)
    (m : gmap (CurrencyCeremony * K) V) : gmap (CurrencyCeremony * K) V :=
  filter (fun kv : (CurrencyCeremony * K) * V => kv.1.1 <> cc) m.

Definition purge_cid (st : State) (cc : CurrencyCeremony) : State :=
  mkState
    (remove_prefix cc (participant_registry st))
    (remove_prefix cc (participant_index st))
    (<[cc := 0]> (participant_count st))
    (participant_reputation st)
    (remove_prefix cc (meetup_registry st))
    (remove_prefix cc (meetup_index st))
    (<[cc := 0]> (meetup_count st))
    (remove_prefix cc (attestation_registry st))
    (remove_prefix cc (attestation_index st))
    (<[cc := 0]> (attestation_count st))
    (remove_prefix cc (meetup_participant_count_vote st))
    (ceremony_reward st) (location_tolerance st) (time_tolerance st) (issued st).

Definition purge_registry (env : Env) (st : State) (cindex : CeremonyIndexType) : State :=
  fold_left (fun st cid => purge_cid st (cid, cindex)) (currency_identifiers env) st.

(** ** Phase hook ([on_ceremony_phase_change]) *)

Definition on_ceremony_phase_change
    (ledger_issue : list (CurrencyIdentifier * AccountId * Z) -> CurrencyIdentifier -> AccountId -> Z -> bool)
    (env : Env) (st : State) (new_phase : CeremonyPhaseType) : option State :=
  match new_phase with
  | ASSIGNING => assign_meetups env st
  | ATTESTING => Some st
  | REGISTERING =>
    let st := issue_rewards ledger_issue env st in
    let cindex := current_ceremony_index env in
    Some (purge_registry env st (u32_sub cindex 1))
  end.

(** ** Dispatchables *)

Inductive DispatchResult :=
  | Ok (st : State)
  | Err (e : string).

Definition Signature := nat.
Definition REPUTATION_LIFETIME : Z := 1.

Record ClaimOfAttendance := mkClaim {
  claimant_public : AccountId;
  claim_ceremony_index : CeremonyIndexType;
  claim_currency_identifier : CurrencyIdentifier;
  claim_meetup_index : Z;
  claim_location : Location;
  claim_timestamp : Z;
  number_of_participants_confirmed : Z
}.

Record Attestation := mkAttestation {
  claim : ClaimOfAttendance;
  signature : Signature;
  public : AccountId
}.

Record ProofOfAttendance := mkProof {
  prover_public : AccountId;
  proof_ceremony_index : CeremonyIndexType;
  proof_currency_identifier : CurrencyIdentifier;
  attendee_public : AccountId;
  attendee_signature : Signature
}.

(** The signed payloads: an encoded claim, or an encoded
    [(prover_public, ceremony_index)]. *)
Inductive Message :=
  | MsgClaim (c : ClaimOfAttendance)
  | MsgProof (prover : AccountId) (cindex : CeremonyIndexType).

Section Dispatchables.

(** [Signature::verify(message, signer)] *)
Variable verify : Signature -> Message -> AccountId -> bool.

Definition verify_attendee_signature (proof : ProofOfAttendance) : bool :=
  verify (attendee_signature proof)
    (MsgProof (prover_public proof) (proof_ceremony_index proof)) (attendee_public proof).

Definition verify_attestation_signature (a : Attestation) : bool :=
  negb (public a =? claimant_public (claim a))%nat
  && verify (signature a) (MsgClaim (claim a)) (public a).

Definition grant_reputation (env : Env) (st : State) (sender : AccountId)
    (cid : CurrencyIdentifier) (reputable : AccountId) : DispatchResult :=
  if negb (sender =? ceremony_master env)%nat
  then Err "only the CeremonyMaster can call this function" else
  let cindex := current_ceremony_index env in
  Ok (set_reputation st
        (<[((cid, u32_sub cindex 1), reputable) := VerifiedUnlinked]> (participant_reputation st))).

Definition register_participant (env : Env) (st : State) (sender : AccountId)
    (cid : CurrencyIdentifier) (proof : option ProofOfAttendance) : DispatchResult :=
  if decide (current_phase env <> REGISTERING)
  then Err "registering participants can only be done during REGISTERING phase" else
  if negb (contains (currency_identifiers env) cid) then Err "CurrencyIdentifier not found" else
  let cindex := current_ceremony_index env in
  let cc := (cid, cindex) in
  if bool_decide (is_Some (participant_index st !! (cc, sender)))
  then Err "ParticipantAlreadyRegistered" else
  let count := get_participant_count st cc in
  match u64_checked_add count 1 with
  | None => Err "[EncointerCeremonies]: Overflow adding new participant to registry"
  | Some new_count =>
    let commit rep :=
      Ok (set_participants st
            (<[(cc, new_count) := sender]> (participant_registry st))
            (<[(cc, sender) := new_count]> (participant_index st))
            (<[cc := new_count]> (participant_count st)) rep) in
    match proof with
    | None => commit (participant_reputation st)
    | Some p =>
      if negb (sender =? prover_public p)%nat then Err "supplied proof is not proving sender" else
      if negb (proof_ceremony_index p <? cindex) then Err "proof is acausal" else
      if negb (u32_sub cindex REPUTATION_LIFETIME <=? proof_ceremony_index p)
      then Err "proof is outdated" else
      let pcc := (proof_currency_identifier p, proof_ceremony_index p) in
      if decide (get_participant_reputation st pcc (attendee_public p) <> VerifiedUnlinked)
      then Err "former attendance has not been verified or has already been linked to other account" else
      if negb (verify_attendee_signature p) then Err "BadProofOfAttendanceSignature" else
      let rep := <[(pcc, attendee_public p) := VerifiedLinked]> (participant_reputation st) in
      let rep := <[(cc, sender) := UnverifiedReputable]> rep in
      commit rep
    end
  end.

(** Services of the currencies pallet, and the moment of a meetup at a
    location computed from the scheduler's timestamps. *)
Variable is_valid_geolocation : Location -> bool.
Variable haversine_distance : Location -> Location -> Z.
Variable meetup_moment : Env -> Location -> Z.

(** [get_meetup_location]; at index 0 the [u64] subtraction wraps and the
    indexing is out of bounds, a panic, rendered as [None]. *)
Definition get_meetup_location (env : Env) (cid : CurrencyIdentifier) (meetup_idx : Z) : option Location :=
  let locs := locations env cid in
  if meetup_idx <=? Z.of_nat (length locs) then
    if meetup_idx =? 0 then None else locs !! Z.to_nat (meetup_idx - 1)
  else None.

Definition get_meetup_time (env : Env) (cid : CurrencyIdentifier) (meetup_idx : Z) : option Z :=
  if decide (current_phase env <> ATTESTING) then None else
  mlocation ← get_meetup_location env cid meetup_idx;
  Some (meetup_moment env mlocation).

(** The per-attestation filter of [register_attestations]: [false] where
    the loop [continue]s. *)
Definition attestation_accepted (st : State) (cid : CurrencyIdentifier) (cindex : CeremonyIndexType)
    (meetup_index : Z) (meetup_participants : list AccountId) (mlocation : Location) (mtime : Z)
    (attestation : Attestation) : bool :=
  let c := claim attestation in
  if negb (contains meetup_participants (public attestation)) then false else
  if negb (claim_ceremony_index c =? cindex) then false else
  if negb (claim_currency_identifier c =? cid)%nat then false else
  if negb (claim_meetup_index c =? meetup_index) then false else
  if negb (is_valid_geolocation (claim_location c)) then false else
  if haversine_distance mlocation (claim_location c) >? location_tolerance st then false else
  if (if claim_timestamp c <=? mtime
      then mtime - claim_timestamp c >? time_tolerance st
      else claim_timestamp c - mtime >? time_tolerance st) then false else
  verify_attestation_signature attestation.

(** The filtering loop: accepted signers are [insert(0, _)]ed, and the
    vote is that of the last accepted claim. *)
Definition filter_attestations (st : State) (cid : CurrencyIdentifier) (cindex : CeremonyIndexType)
    (meetup_index : Z) (meetup_participants : list AccountId) (mlocation : Location) (mtime : Z)
    (attestations : list Attestation) : list AccountId * Z :=
  fold_left (fun '(verified, claim_n_participants) attestation =>
    if attestation_accepted st cid cindex meetup_index meetup_participants mlocation mtime attestation
    then (public attestation :: verified, number_of_participants_confirmed (claim attestation))
    else (verified, claim_n_participants))
    attestations ([], 0).

Definition register_attestations (env : Env) (st : State) (sender : AccountId)
    (attestations : list Attestation) : DispatchResult :=
  if decide (current_phase env <> ATTESTING)
  then Err "registering attestations can only be done during ATTESTING phase" else
  let cindex := current_ceremony_index env in
  match attestations with
  | [] => Err "empty attestations supplied"
  | a0 :: _ =>
    let cid := claim_currency_identifier (claim a0) in
    if negb (contains (currency_identifiers env) cid) then Err "CurrencyIdentifier not found" else
    let cc := (cid, cindex) in
    let meetup_index := get_meetup_index st cc sender in
    let meetup_participants := get_meetup_registry st cc meetup_index in
    if negb (contains meetup_participants sender) then Err "origin not part of this meetup" else
    let meetup_participants := List.filter (fun x => negb (x =? sender)%nat) meetup_participants in
    let num_registered := length meetup_participants in
    let num_signed := length attestations in
    if negb (num_signed <=? num_registered)%nat
    then Err "can't have more attestations than other meetup participants" else
    match get_meetup_location env cid meetup_index with
    | None => Err "MeetupLocationNotFound"
    | Some mlocation =>
      match get_meetup_time env cid meetup_index with
      | None => Err "MeetupTimeCalculationError"
      | Some mtime =>
        let '(verified_attestation_accounts, claim_n_participants) :=
          filter_attestations st cid cindex meetup_index meetup_participants mlocation mtime attestations in
        match verified_attestation_accounts with
        | [] => Err "NoValidAttestations"
        | _ =>
          let count := get_attestation_count st cc in
          let slot :=
            match attestation_index st !! (cc, sender) with
            | Some idx => Some (idx, attestation_count st)
            | None =>
              new_count ← u64_checked_add count 1;
              Some (u64_add count 1, <[cc := new_count]> (attestation_count st))
            end in
          match slot with
          | None => Err "[EncointerCeremonies]: Overflow adding new attestation to registry"
          | Some (idx, counts) =>
            Ok (set_attestations st
                  (<[(cc, idx) := verified_attestation_accounts]> (attestation_registry st))
                  (<[(cc, sender) := idx]> (attestation_index st))
                  counts
                  (<[(cc, sender) := claim_n_participants]> (meetup_participant_count_vote st)))
          end
        end
      end
    end
  end.

(** The signed calls of the pallet, and their execution in sequence
    while the other pallets' state [env] stays fixed (the calls of one
    phase).  A failed call leaves the state as it was. *)
Inductive Call :=
  | CallGrantReputation (sender : AccountId) (cid : CurrencyIdentifier) (reputable : AccountId)
  | CallRegisterParticipant (sender : AccountId) (cid : CurrencyIdentifier)
      (proof : option ProofOfAttendance)
  | CallRegisterAttestations (sender : AccountId) (attestations : list Attestation).

Definition dispatch (env : Env) (st : State) (c : Call) : DispatchResult :=
  match c with
  | CallGrantReputation sender cid reputable => grant_reputation env st sender cid reputable
  | CallRegisterParticipant sender cid proof => register_participant env st sender cid proof
  | CallRegisterAttestations sender attestations => register_attestations env st sender attestations
  end.

(** The final state and, per call, whether it succeeded. *)
Fixpoint execute (env : Env) (st : State) (calls : list Call) : State * list bool :=
  match calls with
  | [] => (st, [])
  | c :: rest =>
    let '(st, ok) := match dispatch env st c with Ok st' => (st', true) | Err _ => (st, false) end in
    let '(st_end, oks) := execute env st rest in
    (st_end, ok :: oks)
  end.

End Dispatchables.

Definition is_grant_reputation (c : Call) : bool :=
  match c with CallGrantReputation _ _ _ => true | _ => false end.

(** ** Observations used in the statements *)

(** Everything the purge clears, cleared for the key [cc]. *)
Definition ceremony_cleared (st : State) (cc : CurrencyCeremony) : Prop :=
  (forall i, participant_registry st !! (cc, i) = None) /\
  (forall a, participant_index st !! (cc, a) = None) /\
  participant_count st !! cc = Some 0 /\
  (forall i, meetup_registry st !! (cc, i) = None) /\
  (forall a, meetup_index st !! (cc, a) = None) /\
  meetup_count st !! cc = Some 0 /\
  (forall i, attestation_registry st !! (cc, i) = None) /\
  (forall a, attestation_index st !! (cc, a) = None) /\
  attestation_count st !! cc = Some 0 /\
  (forall a, meetup_participant_count_vote st !! (cc, a) = None).

(** The reads of the reward loop, which the loop itself never writes. *)
Definition reward_reads (st : State) :=
  (meetup_participant_count_vote st, attestation_registry st, attestation_index st, ceremony_reward st).

(** How many of [witnesses] list [p] in their own attestation bundle
    (each occurrence in [witnesses] counted). *)
Definition count_reciprocating (st : State) (cc : CurrencyCeremony) (p : AccountId)
    (witnesses : list AccountId) : nat :=
  length (List.filter (fun w => contains (get_attestation_registry st cc (get_attestation_index st cc w)) p)
            witnesses).

(** The reward conditions as the loop checks them, for a ballot won by
    [n_confirmed] with [n_honest] votes. *)
Definition reward_thresholds_met (st : State) (cc : CurrencyCeremony) (n_confirmed n_honest : Z)
    (p : AccountId) : Prop :=
  get_meetup_participant_count_vote st cc p = n_confirmed /\
  n_honest - 1 <= Z.of_nat (length (get_attestation_registry st cc (get_attestation_index st cc p))) /\
  n_honest - 1 <= Z.of_nat (count_reciprocating st cc p
                              (get_attestation_registry st cc (get_attestation_index st cc p))).

(** The witnesses recorded in [p]'s attestation bundle. *)
Definition bundle_of (st : State) (cc : CurrencyCeremony) (p : AccountId) : list AccountId :=
  get_attestation_registry st cc (get_attestation_index st cc p).

(** The positive headcount votes of the members [ps], in member order:
    the votes the tally loop counts. *)
Definition meetup_votes (st : State) (cc : CurrencyCeremony) (ps : list AccountId) : list Z :=
  List.filter (fun v => 0 <? v) (map (get_meetup_participant_count_vote st cc) ps).

(** The distinct values of [vs] in the order of their first occurrence. *)
Definition first_seen (vs : list Z) : list Z :=
  fold_left (fun acc v => if existsb (Z.eqb v) acc then acc else acc ++ [v]) vs [].

(** The number of votes for [v] in [vs], as a [u32] counter holds it. *)
Definition votes_for (vs : list Z) (v : Z) : Z :=
  Z.of_nat (count_occ Z.eq_dec vs v) mod u32_modulus.

(** Two states hold the same meetups, reverse index and meetup count
    for the key [cc]. *)
Definition meetups_agree (cc : CurrencyCeremony) (st1 st2 : State) : Prop :=
  (forall j, meetup_registry st1 !! (cc, j) = meetup_registry st2 !! (cc, j)) /\
  (forall a, meetup_index st1 !! (cc, a) = meetup_index st2 !! (cc, a)) /\
  meetup_count st1 !! cc = meetup_count st2 !! cc.

(** No meetup and no meetup assignment is stored for the key [cc]. *)
Definition no_meetups_at (st : State) (cc : CurrencyCeremony) : Prop :=
  (forall j, meetup_registry st !! (cc, j) = None) /\
  (forall a, meetup_index st !! (cc, a) = None).

(** The participant registry of [cc] is consistent: the registry and the
    reverse index are inverse maps, and the registry's indices are
    exactly [1..count]. *)
Definition participants_consistent (st : State) (cc : CurrencyCeremony) : Prop :=
  0 <= get_participant_count st cc /\
  (forall i a, participant_registry st !! (cc, i) = Some a <->
               participant_index st !! (cc, a) = Some i) /\
  (forall i, is_Some (participant_registry st !! (cc, i)) <->
             1 <= i <= get_participant_count st cc).

(** The storage items other than the meetup registry, index and count. *)
Definition non_meetup_fields (st : State) :=
  (participant_registry st, participant_index st, participant_count st, participant_reputation st,
   attestation_registry st, attestation_index st, attestation_count st,
   meetup_participant_count_vote st, ceremony_reward st, location_tolerance st,
   time_tolerance st, issued st).

(** The storage items other than the reputations and the balances
    pallet's record of issuances. *)
Definition non_reward_fields (st : State) :=
  (participant_registry st, participant_index st, participant_count st,
   meetup_registry st, meetup_index st, meetup_count st,
   attestation_registry st, attestation_index st, attestation_count st,
   meetup_participant_count_vote st, ceremony_reward st, location_tolerance st,
   time_tolerance st).

(** Two states hold the same entries of every registry, index, counter
    and vote map for the key [cc]. *)
Definition ceremony_agree (cc : CurrencyCeremony) (st1 st2 : State) : Prop :=
  (forall i, participant_registry st1 !! (cc, i) = participant_registry st2 !! (cc, i)) /\
  (forall a, participant_index st1 !! (cc, a) = participant_index st2 !! (cc, a)) /\
  participant_count st1 !! cc = participant_count st2 !! cc /\
  meetups_agree cc st1 st2 /\
  (forall i, attestation_registry st1 !! (cc, i) = attestation_registry st2 !! (cc, i)) /\
  (forall a, attestation_index st1 !! (cc, a) = attestation_index st2 !! (cc, a)) /\
  attestation_count st1 !! cc = attestation_count st2 !! cc /\
  (forall a, meetup_participant_count_vote st1 !! (cc, a) =
             meetup_participant_count_vote st2 !! (cc, a)).

(** The test [assign_meetups] uses to count a registered participant as
    reputable: reputation [UnverifiedReputable], or a bootstrapper. *)
Definition is_reputable (env : Env) (st : State) (cc : CurrencyCeremony) (a : AccountId) : bool :=
  bool_decide (get_participant_reputation st cc a = UnverifiedReputable)
  || contains (bootstrappers env cc.1) a.


(** The attestation registry of [cc] is consistent: the count is a
    [u64], every attestation index lies in [1..count], and no two
    accounts share an index. *)
Definition attestations_consistent (st : State) (cc : CurrencyCeremony) : Prop :=
  0 <= get_attestation_count st cc < u64_modulus /\
  (forall a i, attestation_index st !! (cc, a) = Some i -> 1 <= i <= get_attestation_count st cc) /\
  (forall a b i, attestation_index st !! (cc, a) = Some i ->
                 attestation_index st !! (cc, b) = Some i -> a = b).

(** [st'] differs from [st] at most by issuances of the amount [r] in
    the communities [cids], appended to the record, and by reputations
    set to [VerifiedUnlinked] for the ceremony [cindex] of those
    communities. *)
Definition rewards_only (cids : list CurrencyIdentifier) (cindex r : Z) (st st' : State) : Prop :=
  non_reward_fields st' = non_reward_fields st /\
  (exists new, issued st' = issued st ++ new /\
     forall cid acc x, In (cid, acc, x) new -> In cid cids /\ x = r) /\
  (forall key, participant_reputation st' !! key <> participant_reputation st !! key ->
     participant_reputation st' !! key = Some VerifiedUnlinked /\
     exists cid acc, key = ((cid, cindex), acc) /\ In cid cids).
(** ** Example configurations *)

(** A signature scheme accepting every signature, a currencies pallet
    accepting every location at distance 0, and meetups at moment 0. *)
Definition verify_any : Signature -> Message -> AccountId -> bool := fun _ _ _ => true.
Definition geo_any : Location -> bool := fun _ => true.
Definition distance_zero : Location -> Location -> Z := fun _ _ => 0.
Definition moment_zero : Env -> Location -> Z := fun _ _ => 0.
Definition issue_any : list (CurrencyIdentifier * AccountId * Z) -> CurrencyIdentifier -> AccountId -> Z -> bool :=
  fun _ _ _ _ => true.

Definition empty_state : State :=
  mkState ∅ ∅ ∅ ∅ ∅ ∅ ∅ ∅ ∅ ∅ ∅ 1 100 100 [].

(** Ceremony 1 of currency 0 in its REGISTERING phase; ceremony master 99. *)
Definition env_registering : Env :=
  mkEnv REGISTERING 1 [0%nat] 99%nat (fun _ => []) (fun _ => [(0, 0)]).

(** Account 3 holds a [VerifiedUnlinked] reputation for ceremony 0. *)
Definition st_verified_3 : State :=
  set_reputation empty_state {[((0%nat, 0), 3%nat) := VerifiedUnlinked]}.

(** A proof for [prover] of account 3's attendance at ceremony 0. *)
Definition proof_of_3 (prover : AccountId) : ProofOfAttendance :=
  mkProof prover 0 0%nat 3%nat 0%nat.

(** Meetup 1 of ceremony 0, currency 0: members 1, 2, 3, each voting 5
    and each attested by the two others (bundles 1, 2, 3). *)
Definition st_three_mutual : State :=
  mkState ∅ ∅ ∅ ∅
    {[((0%nat, 0), 1) := [1; 2; 3]%nat]}
    ∅ {[(0%nat, 0) := 1]}
    (list_to_map [(((0%nat, 0), 1), [2; 3]%nat); (((0%nat, 0), 2), [1; 3]%nat);
                  (((0%nat, 0), 3), [1; 2]%nat)])
    (list_to_map [(((0%nat, 0), 1%nat), 1); (((0%nat, 0), 2%nat), 2); (((0%nat, 0), 3%nat), 3)])
    {[(0%nat, 0) := 3]}
    (list_to_map [(((0%nat, 0), 1%nat), 5); (((0%nat, 0), 2%nat), 5); (((0%nat, 0), 3%nat), 5)])
    1 100 100 [].

(** Meetup 1 of ceremony 0, currency 0: members 1 to 6; members 1, 2, 3
    vote 5 and members 4, 5, 6 vote 4. *)
Definition st_tie : State :=
  mkState ∅ ∅ ∅ ∅
    {[((0%nat, 0), 1) := [1; 2; 3; 4; 5; 6]%nat]}
    ∅ {[(0%nat, 0) := 1]} ∅ ∅ ∅
    (list_to_map [(((0%nat, 0), 1%nat), 5); (((0%nat, 0), 2%nat), 5); (((0%nat, 0), 3%nat), 5);
                  (((0%nat, 0), 4%nat), 4); (((0%nat, 0), 5%nat), 4); (((0%nat, 0), 6%nat), 4)])
    1 100 100 [].

(** Ceremony 1 of currency 0 in its ATTESTING phase, one meetup at (0, 0). *)
Definition env_attesting : Env :=
  mkEnv ATTESTING 1 [0%nat] 99%nat (fun _ => []) (fun _ => [(0, 0)]).

(** Meetup 1 of ceremony 1, currency 0, with members 1, 2, 3; member 2
    has already registered the bundle [[1]] (attestation index 1). *)
Definition st_meetup_123 : State :=
  mkState ∅ ∅ ∅ ∅
    {[((0%nat, 1), 1) := [1; 2; 3]%nat]}
    (list_to_map [(((0%nat, 1), 1%nat), 1); (((0%nat, 1), 2%nat), 1); (((0%nat, 1), 3%nat), 1)])
    {[(0%nat, 1) := 1]}
    {[((0%nat, 1), 1) := [1%nat]]} {[((0%nat, 1), 2%nat) := 1]} {[(0%nat, 1) := 1]}
    ∅ 1 100 100 [].

(** Member 2's attestation of member 1's claim (meetup 1, at (0, 0),
    time 0, headcount 3). *)
Definition attestation_2_for_1 : Attestation :=
  mkAttestation (mkClaim 1%nat 1 0%nat 1 (0, 0) 0 3) 0%nat 2%nat.

(** Ceremony 1 of currency 0 in its ASSIGNING phase. *)
Definition env_assigning : Env :=
  mkEnv ASSIGNING 1 [0%nat] 99%nat (fun _ => []) (fun _ => [(0, 0)]).

(** Twelve registered participants of ceremony 1, currency 0: accounts 1
    to 12 at indices 1 to 12; accounts 1 to 9 are reputable. *)
Definition st_registered : State :=
  mkState
    (list_to_map (map (fun i => (((0%nat, 1), Z.of_nat i), i)) (seq 1 12)))
    (list_to_map (map (fun i => (((0%nat, 1), i), Z.of_nat i)) (seq 1 12)))
    {[(0%nat, 1) := 12]}
    (list_to_map (map (fun i => (((0%nat, 1), i), UnverifiedReputable)) (seq 1 9)))
    ∅ ∅ ∅ ∅ ∅ ∅ ∅ 1 100 100 [].


(** Meetup 1 of ceremony 0, currency 0: members 1 to 4, each attested by
    the three others; members 1, 2 vote 5 and members 3, 4 vote 4. *)
Definition st_split_4 : State :=
  mkState ∅ ∅ ∅ ∅
    {[((0%nat, 0), 1) := [1; 2; 3; 4]%nat]}
    ∅ {[(0%nat, 0) := 1]}
    (list_to_map [(((0%nat, 0), 1), [2; 3; 4]%nat); (((0%nat, 0), 2), [1; 3; 4]%nat);
                  (((0%nat, 0), 3), [1; 2; 4]%nat); (((0%nat, 0), 4), [1; 2; 3]%nat)])
    (list_to_map [(((0%nat, 0), 1%nat), 1); (((0%nat, 0), 2%nat), 2);
                  (((0%nat, 0), 3%nat), 3); (((0%nat, 0), 4%nat), 4)])
    {[(0%nat, 0) := 4]}
    (list_to_map [(((0%nat, 0), 1%nat), 5); (((0%nat, 0), 2%nat), 5);
                  (((0%nat, 0), 3%nat), 4); (((0%nat, 0), 4%nat), 4)])
    1 100 100 [].

(** * Properties *)

(** ** Purge *)

Lemma remove_prefix_lookup_same {K V} `{Countable K} (cc : CurrencyCeremony)
    (m : gmap (CurrencyCeremony * K) V) (k : K) :
  remove_prefix cc m !! (cc, k) = None.
Proof.
  unfold remove_prefix. apply map_lookup_filter_None. right. intros x _. simpl. auto.
Qed.

Lemma remove_prefix_lookup_other {K V} `{Countable K} (cc cc' : CurrencyCeremony)
    (m : gmap (CurrencyCeremony * K) V) (k : K) :
  cc' <> cc -> remove_prefix cc m !! (cc', k) = m !! (cc', k).
Proof.
  intros Hne. unfold remove_prefix. rewrite map_lookup_filter.
  destruct (m !! (cc', k)); simpl; [|done].
  rewrite option_guard_True; [done|]. simpl. done.
Qed.

Lemma purge_cid_clears st cc : ceremony_cleared (purge_cid st cc) cc.
Proof.
  unfold ceremony_cleared, purge_cid; simpl.
  repeat split; intros; (apply remove_prefix_lookup_same || apply lookup_insert_eq).
Qed.

Lemma purge_cid_keeps_cleared st cc cc' :
  ceremony_cleared st cc' -> ceremony_cleared (purge_cid st cc) cc'.
Proof.
  intros (H1 & H2 & H3 & H4 & H5 & H6 & H7 & H8 & H9 & H10).
  destruct (decide (cc' = cc)) as [->|Hne]; [apply purge_cid_clears|].
  unfold ceremony_cleared, purge_cid; simpl.
  repeat split; intros;
    first [ rewrite remove_prefix_lookup_other by done; auto
          | rewrite lookup_insert_ne by congruence; auto ].
Qed.

Lemma purge_fold_keeps_cleared cids st cindex cc :
  ceremony_cleared st cc ->
  ceremony_cleared (fold_left (fun st cid => purge_cid st (cid, cindex)) cids st) cc.
Proof.
  revert st. induction cids as [|c cs IH]; intros st Hc; simpl; [done|].
  apply IH. by apply purge_cid_keeps_cleared.
Qed.

Lemma purge_fold_reputation cids st cindex :
  participant_reputation (fold_left (fun st cid => purge_cid st (cid, cindex)) cids st)
  = participant_reputation st.
Proof.
  revert st. induction cids as [|c cs IH]; intros st; simpl; [done|].
  rewrite IH. done.
Qed.

(** C9: after [purge_registry env st k], every registry, index, counter
    and headcount vote keyed by [(cid, k)] is cleared (counters at 0) for
    every known community, and the reputation map is unchanged. *)
Theorem purge_registry_clears_and_keeps_reputation (env : Env) (st : State) (k : CeremonyIndexType) :
  (forall cid, In cid (currency_identifiers env) -> ceremony_cleared (purge_registry env st k) (cid, k)) /\
  participant_reputation (purge_registry env st k) = participant_reputation st.
Proof.
  unfold purge_registry. split; [|apply purge_fold_reputation].
  generalize st. induction (currency_identifiers env) as [|c cs IH]; intros st0 cid Hin;
    simpl in *; [done|].
  destruct Hin as [<-|Hin]; [|by apply IH].
  apply purge_fold_keeps_cleared. apply purge_cid_clears.
Qed.

(** ** Ballot quorum *)

(** C8: when the bucket that comes first after sorting the tally (the
    winning bucket) has fewer than 3 votes, rewarding the meetup leaves
    the whole state unchanged: no issuance, no reputation change. *)
Theorem reward_meetup_skips_small_winning_bucket ledger_issue (st : State) (cid : CurrencyIdentifier)
    (cindex : CeremonyIndexType) (m : Z) (n c : Z) (rest : list (Z * Z)) :
  sort_by_count_desc (tally_votes st (cid, cindex) (get_meetup_registry st (cid, cindex) m))
    = (n, c) :: rest ->
  c < 3 ->
  reward_meetup ledger_issue st cid cindex m = st.
Proof.
  intros Hs Hc. unfold reward_meetup, ballot_meetup_n_votes.
  destruct (tally_votes _ _ _) as [|t ts] eqn:Ht; [done|].
  rewrite Hs. rewrite (proj2 (Z.ltb_lt c 3) Hc). done.
Qed.

(** ** Registration with a proof of attendance *)

Lemma u32_sub_1_small (x : Z) : 1 <= x < u32_modulus + 1 -> u32_sub x 1 = x - 1.
Proof. intros Hx. unfold u32_sub, u32_modulus in *. apply Z.mod_small. lia. Qed.

(** C6: under the general preconditions of [register_participant]
    (REGISTERING phase, known community, caller not yet registered,
    participant counter below the [u64] bound) and with the ceremony
    indices in the [u32] range, [register_participant] with a proof succeeds exactly when the
    prover is the caller, the proof's ceremony index is [cindex - 1], the
    referenced reputation is [VerifiedUnlinked] and the attendee's
    signature verifies; then the referenced reputation becomes
    [VerifiedLinked], the caller's becomes [UnverifiedReputable] and the
    caller gets the next participant index.  Otherwise it returns an
    error (and no state). *)
Theorem register_participant_with_proof_iff verify (env : Env) (st : State) (sender : AccountId)
    (cid : CurrencyIdentifier) (p : ProofOfAttendance) :
  current_phase env = REGISTERING ->
  contains (currency_identifiers env) cid = true ->
  participant_index st !! ((cid, current_ceremony_index env), sender) = None ->
  get_participant_count st (cid, current_ceremony_index env) + 1 < u64_modulus ->
  0 <= proof_ceremony_index p ->
  current_ceremony_index env < u32_modulus ->
  let cindex := current_ceremony_index env in
  let cc := (cid, cindex) in
  let pcc := (proof_currency_identifier p, proof_ceremony_index p) in
  let new_count := get_participant_count st cc + 1 in
  let proof_ok :=
    sender = prover_public p /\
    proof_ceremony_index p < cindex /\
    cindex - 1 <= proof_ceremony_index p /\
    get_participant_reputation st pcc (attendee_public p) = VerifiedUnlinked /\
    verify_attendee_signature verify p = true in
  (proof_ok ->
   register_participant verify env st sender cid (Some p) =
   Ok (set_participants st
         (<[(cc, new_count) := sender]> (participant_registry st))
         (<[(cc, sender) := new_count]> (participant_index st))
         (<[cc := new_count]> (participant_count st))
         (<[(cc, sender) := UnverifiedReputable]>
            (<[(pcc, attendee_public p) := VerifiedLinked]> (participant_reputation st))))) /\
  (~ proof_ok -> exists e, register_participant verify env st sender cid (Some p) = Err e).
Proof.
  intros Hph Hcid Hidx Hcnt Hp0 Hc32 cindex cc pcc new_count proof_ok.
  assert (Hreg : forall e0, (exists e, Err e0 = Err e)) by eauto.
  unfold register_participant.
  rewrite Hph, Hcid. simpl.
  rewrite Hidx. simpl.
  unfold u64_checked_add. rewrite (proj2 (Z.ltb_lt _ _) Hcnt). fold cindex cc.
  split.
  - intros (-> & Hlt & Hge & Hrep & Hsig).
    rewrite Nat.eqb_refl. simpl.
    rewrite (proj2 (Z.ltb_lt _ _) Hlt). simpl.
    rewrite u32_sub_1_small by (unfold REPUTATION_LIFETIME; lia).
    unfold REPUTATION_LIFETIME.
    rewrite (proj2 (Z.leb_le _ _) Hge). simpl.
    fold pcc. rewrite decide_False by congruence. rewrite Hsig. reflexivity.
  - intros Hnot.
    destruct (Nat.eqb_spec sender (prover_public p)) as [Hs|Hs]; simpl; [|eauto].
    destruct (Z.ltb_spec (proof_ceremony_index p) cindex) as [Hlt|Hlt]; simpl; [|eauto].
    unfold REPUTATION_LIFETIME.
    rewrite u32_sub_1_small by lia.
    destruct (Z.leb_spec (cindex - 1) (proof_ceremony_index p)) as [Hge|Hge]; simpl; [|eauto].
    fold pcc.
    destruct (decide (get_participant_reputation st pcc (attendee_public p) <> VerifiedUnlinked))
      as [Hr|Hr]; [eauto|].
    destruct (verify_attendee_signature verify p) eqn:Hsig; simpl; [|eauto].
    exfalso. apply Hnot. repeat split; auto.
    destruct (decide (get_participant_reputation st pcc (attendee_public p) = VerifiedUnlinked));
      [assumption|contradiction].
Qed.

(** ** A consumed proof of attendance *)

Lemma register_participant_reputation verify env st sender cid proof st' :
  register_participant verify env st sender cid proof = Ok st' ->
  participant_reputation st' = participant_reputation st \/
  exists k1 k2, participant_reputation st' =
    <[k1 := UnverifiedReputable]> (<[k2 := VerifiedLinked]> (participant_reputation st)).
Proof.
  unfold register_participant. intros H.
  repeat (case_match; simplify_eq/=); eauto.
Qed.

Lemma register_attestations_reputation verify geo hav moment env st sender atts st' :
  register_attestations verify geo hav moment env st sender atts = Ok st' ->
  participant_reputation st' = participant_reputation st.
Proof.
  unfold register_attestations. intros H.
  repeat (case_match; simplify_eq/=); done.
Qed.

Lemma register_participant_keeps_not_unlinked verify env st sender cid proof st' key :
  participant_reputation st !! key <> Some VerifiedUnlinked ->
  register_participant verify env st sender cid proof = Ok st' ->
  participant_reputation st' !! key <> Some VerifiedUnlinked.
Proof.
  intros Hk Hok.
  destruct (register_participant_reputation _ _ _ _ _ _ _ Hok) as [->|(k1 & k2 & ->)]; [done|].
  rewrite !lookup_insert. repeat case_decide; congruence.
Qed.

Lemma execute_keeps_not_unlinked verify geo hav moment env calls st key :
  Forall (fun c => is_grant_reputation c = false) calls ->
  participant_reputation st !! key <> Some VerifiedUnlinked ->
  participant_reputation (execute verify geo hav moment env st calls).1 !! key <> Some VerifiedUnlinked.
Proof.
  revert st. induction calls as [|c cs IH]; intros st Hng Hk; simpl; [done|].
  inversion Hng as [|? ? Hc Hcs]; subst.
  destruct (dispatch verify geo hav moment env st c) as [st1|e] eqn:Hd;
    destruct (execute verify geo hav moment env _ cs) as [st_end oks] eqn:He; simpl;
    (replace st_end with (execute verify geo hav moment env (match dispatch verify geo hav moment env st c with Ok st' => st' | Err _ => st end) cs).1 by (rewrite Hd, He; done));
    rewrite Hd; apply IH; auto.
  destruct c; simpl in *; try discriminate.
  - eapply register_participant_keeps_not_unlinked; eauto.
  - erewrite register_attestations_reputation; eauto.
Qed.

Lemma register_participant_proof_needs_unlinked verify env st sender cid p st' :
  register_participant verify env st sender cid (Some p) = Ok st' ->
  participant_reputation st !! ((proof_currency_identifier p, proof_ceremony_index p), attendee_public p)
    = Some VerifiedUnlinked.
Proof.
  unfold register_participant. intros H.
  repeat (case_match; simplify_eq/=).
  match goal with
  | Hn : ~ (get_participant_reputation ?s ?c ?a <> VerifiedUnlinked) |- _ =>
      assert (Hg : get_participant_reputation s c a = VerifiedUnlinked)
        by (apply dec_stable; exact Hn)
  end.
  clear - Hg. unfold get_participant_reputation in Hg.
  destruct (participant_reputation st !! _); simpl in Hg; congruence.
Qed.

(** C7 (as corrected): a successful registration consuming a proof
    leaves the referenced entry [VerifiedLinked]; afterwards, along any
    sequence of signed calls other than [grant_reputation] (in the same
    phase), every registration presenting a proof that references the same
    (currency, ceremony index, attendee) entry fails. *)
Theorem consumed_proof_not_reusable verify geo hav moment (env : Env) (st : State)
    (sender : AccountId) (cid : CurrencyIdentifier) (p : ProofOfAttendance) (st1 : State) :
  register_participant verify env st sender cid (Some p) = Ok st1 ->
  let key := ((proof_currency_identifier p, proof_ceremony_index p), attendee_public p) in
  participant_reputation st1 !! key = Some VerifiedLinked /\
  forall calls sender' cid' p',
    Forall (fun c => is_grant_reputation c = false) calls ->
    proof_currency_identifier p' = proof_currency_identifier p ->
    proof_ceremony_index p' = proof_ceremony_index p ->
    attendee_public p' = attendee_public p ->
    exists e, register_participant verify env
                (execute verify geo hav moment env st1 calls).1 sender' cid' (Some p') = Err e.
Proof.
  intros Hok key.
  assert (Hlinked : participant_reputation st1 !! key = Some VerifiedLinked).
  { revert Hok. unfold register_participant. intros H.
    repeat (case_match; simplify_eq/=).
    match goal with
    | H : negb (proof_ceremony_index p <? _) = false |- _ =>
        apply negb_false_iff, Z.ltb_lt in H
    end.
    rewrite lookup_insert_ne by (intros Heq; inversion Heq; lia).
    apply lookup_insert_eq. }
  split; [exact Hlinked|].
  intros calls sender' cid' p' Hng Hc Hi Ha.
  assert (Hnot : participant_reputation (execute verify geo hav moment env st1 calls).1 !! key
                 <> Some VerifiedUnlinked).
  { apply execute_keeps_not_unlinked; [done|]. rewrite Hlinked. discriminate. }
  destruct (register_participant verify env _ sender' cid' (Some p')) as [st2|e] eqn:Hr; [|eauto].
  apply register_participant_proof_needs_unlinked in Hr.
  rewrite Hc, Hi, Ha in Hr. contradiction.
Qed.

(** ** Reward thresholds *)

Lemma u32_add_range (a b : Z) : 0 <= u32_add a b < u32_modulus.
Proof. unfold u32_add, u32_modulus. apply Z.mod_pos_bound. lia. Qed.

Lemma count_has_attested_from st cc p (ws : list AccountId) (acc0 : Z) :
  0 <= acc0 < u32_modulus ->
  fold_left (fun has_attested w =>
    if contains (get_attestation_registry st cc (get_attestation_index st cc w)) p
    then u32_add has_attested 1 else has_attested) ws acc0
  = (acc0 + Z.of_nat (count_reciprocating st cc p ws)) mod u32_modulus.
Proof.
  unfold count_reciprocating.
  revert acc0. induction ws as [|w ws IH]; intros acc0 Hacc; simpl.
  - rewrite Z.add_0_r. symmetry. apply Z.mod_small. done.
  - destruct (contains _ p) eqn:Hc; simpl.
    + rewrite IH by apply u32_add_range. unfold u32_add.
      rewrite Zplus_mod_idemp_l. f_equal. lia.
    + apply IH. done.
Qed.

Lemma count_has_attested_le st cc p (ws : list AccountId) :
  count_has_attested st cc p ws <= Z.of_nat (count_reciprocating st cc p ws).
Proof.
  unfold count_has_attested. rewrite count_has_attested_from by (unfold u32_modulus; lia).
  rewrite Z.add_0_l. apply Z.mod_le; [lia|unfold u32_modulus; lia].
Qed.

Lemma tally_step_range (cands : list (Z * Z)) (v : Z) :
  Forall (fun nc => 0 <= nc.2 < u32_modulus) cands ->
  Forall (fun nc => 0 <= nc.2 < u32_modulus) (tally_step cands v).
Proof.
  intros Hf. unfold tally_step.
  destruct (position_vote v cands) as [idx|].
  - apply Forall_forall. intros x Hx.
    apply list_elem_of_lookup in Hx as [j Hj].
    rewrite list_lookup_alter in Hj. case_decide; subst.
    + destruct (cands !! _) as [y|] eqn:Hy; simplify_eq/=. apply u32_add_range.
    + rewrite Forall_forall in Hf. apply Hf, list_elem_of_lookup. eauto.
  - constructor; [unfold u32_modulus; simpl; lia|done].
Qed.

Lemma tally_votes_range st cc ps :
  Forall (fun nc => 0 <= nc.2 < u32_modulus) (tally_votes st cc ps).
Proof.
  unfold tally_votes.
  assert (Hgen : forall l, Forall (fun nc : Z * Z => 0 <= nc.2 < u32_modulus) l ->
    Forall (fun nc : Z * Z => 0 <= nc.2 < u32_modulus)
      (fold_left (fun cands p =>
         let this_vote := get_meetup_participant_count_vote st cc p in
         if 0 <? this_vote then tally_step cands this_vote else cands) ps l)).
  { induction ps as [|p ps IH]; intros l Hl; simpl; [done|].
    apply IH. destruct (0 <? _); [by apply tally_step_range|done]. }
  apply Hgen. constructor.
Qed.

Lemma insert_by_count_desc_elem (x y : Z * Z) l :
  In y (insert_by_count_desc x l) -> y = x \/ In y l.
Proof.
  induction l as [|z l IH]; simpl; [intuition|].
  destruct (z.2 <? x.2); simpl; intuition.
Qed.

Lemma sort_by_count_desc_elem (l : list (Z * Z)) y :
  In y (sort_by_count_desc l) -> In y l.
Proof.
  unfold sort_by_count_desc.
  assert (Hgen : forall acc, In y (fold_left (fun acc x => insert_by_count_desc x acc) l acc) ->
                 In y acc \/ In y l).
  { induction l as [|x l IH]; intros acc Hy; simpl in *; [auto|].
    apply IH in Hy as [Hy|Hy]; [|auto].
    apply insert_by_count_desc_elem in Hy as [->|Hy]; auto. }
  intros Hy. apply Hgen in Hy as [[]|Hy]; done.
Qed.

Lemma ballot_range st cid cindex m n c :
  ballot_meetup_n_votes st cid cindex m = Some (n, c) -> 3 <= c < u32_modulus.
Proof.
  unfold ballot_meetup_n_votes. intros H.
  pose proof (tally_votes_range st (cid, cindex) (get_meetup_registry st (cid, cindex) m)) as Hr.
  destruct (tally_votes _ _ _) as [|t ts] eqn:Ht; [done|].
  destruct (sort_by_count_desc (t :: ts)) as [|[n' c'] rest] eqn:Hs; [done|].
  destruct (Z.ltb_spec c' 3); simplify_eq.
  assert (Hin : In (n, c) (t :: ts)) by (apply sort_by_count_desc_elem; rewrite Hs; left; done).
  rewrite Forall_forall in Hr. apply list_elem_of_In in Hin. apply Hr in Hin. simpl in Hin. lia.
Qed.

Lemma reward_reads_thresholds st0 st cc v c p :
  reward_reads st0 = reward_reads st ->
  reward_thresholds_met st0 cc v c p <-> reward_thresholds_met st cc v c p.
Proof.
  unfold reward_reads, reward_thresholds_met, count_reciprocating,
    get_meetup_participant_count_vote, get_attestation_registry, get_attestation_index.
  intros H. injection H as H1 H2 H3 H4. rewrite H1, H2, H3. done.
Qed.

Lemma reward_participant_cases li cid cindex v c st0 p :
  3 <= c < u32_modulus ->
  reward_participant li cid cindex v c st0 p = st0 \/
  (reward_thresholds_met st0 (cid, cindex) v c p /\
   reward_participant li cid cindex v c st0 p =
   set_reputation (set_issued st0 (issued st0 ++ [(cid, p, ceremony_reward st0)]))
     (<[((cid, cindex), p) := VerifiedUnlinked]> (participant_reputation st0))).
Proof.
  intros Hc. unfold reward_participant.
  assert (Hsub : u32_sub c 1 = c - 1) by (apply u32_sub_1_small; lia).
  rewrite Hsub.
  destruct (Z.eqb_spec (get_meetup_participant_count_vote st0 (cid, cindex) p) v) as [Hv|Hv];
    simpl; [|auto].
  destruct (Z.ltb_spec (Z.of_nat (length (get_attestation_registry st0 (cid, cindex)
              (get_attestation_index st0 (cid, cindex) p)))) (c - 1)) as [Hl|Hl]; simpl; [auto|].
  destruct (Nat.eqb _ 0); simpl; [auto|].
  destruct (Z.ltb_spec (count_has_attested st0 (cid, cindex) p
    (get_attestation_registry st0 (cid, cindex) (get_attestation_index st0 (cid, cindex) p))) (c - 1))
    as [Ha|Ha]; [auto|].
  destruct (li _ _ _ _); [|auto].
  right. split; [|done].
  split; [done|]. split; [lia|].
  etransitivity; [exact Ha|]. apply count_has_attested_le.
Qed.

Lemma reward_fold li cid cindex v c ps st st0 :
  3 <= c < u32_modulus ->
  reward_reads st0 = reward_reads st ->
  let st1 := fold_left (reward_participant li cid cindex v c) ps st0 in
  reward_reads st1 = reward_reads st /\
  (exists new, issued st1 = issued st0 ++ new /\
     forall cid' acc r, In (cid', acc, r) new ->
       cid' = cid /\ In acc ps /\ reward_thresholds_met st (cid, cindex) v c acc) /\
  (forall key, participant_reputation st1 !! key <> participant_reputation st0 !! key ->
     exists acc, key = ((cid, cindex), acc) /\ In acc ps /\
       reward_thresholds_met st (cid, cindex) v c acc).
Proof.
  intros Hc. revert st0. induction ps as [|p ps IH]; intros st0 Hr st1; subst st1; simpl.
  - split; [done|]. split; [exists []; rewrite app_nil_r; split; [done|intros ? ? ? []]|].
    intros key Hk. congruence.
  - destruct (reward_participant_cases li cid cindex v c st0 p Hc) as [Heq|[Hm Heq]];
      rewrite Heq.
    + destruct (IH st0 Hr) as (Hr1 & (new & Hn & Hnew) & Hkey). split; [done|]. split.
      * exists new. split; [done|]. intros cid' acc r Hin.
        destruct (Hnew _ _ _ Hin) as (? & ? & ?). split; [done|]. split; [right|]; done.
      * intros key Hk. destruct (Hkey key Hk) as (acc & ? & ? & ?). exists acc.
        split; [done|]. split; [right|]; done.
    + set (st0' := set_reputation _ _).
      assert (Hr' : reward_reads st0' = reward_reads st) by (rewrite <- Hr; done).
      apply (reward_reads_thresholds st0 st) in Hm; [|done].
      destruct (IH st0' Hr') as (Hr1 & (new & Hn & Hnew) & Hkey). split; [done|]. split.
      * exists ((cid, p, ceremony_reward st0) :: new). split.
        { rewrite Hn. simpl. rewrite <- app_assoc. done. }
        intros cid' acc r [Hin|Hin].
        { simplify_eq. split; [done|]. split; [left|]; done. }
        destruct (Hnew _ _ _ Hin) as (? & ? & ?). split; [done|]. split; [right|]; done.
      * intros key Hk.
        destruct (decide (participant_reputation (fold_left (reward_participant li cid cindex v c) ps st0') !! key
                          = participant_reputation st0' !! key)) as [He|He].
        { rewrite He in Hk. subst st0'. simpl in Hk.
          destruct (decide (key = ((cid, cindex), p))) as [->|Hne].
          - exists p. split; [done|]. split; [left|]; done.
          - rewrite lookup_insert_ne in Hk by congruence. contradiction. }
        destruct (Hkey key He) as (acc & ? & ? & ?). exists acc.
        split; [done|]. split; [right|]; done.
Qed.

(** C1 (as corrected): rewarding a meetup issues a reward to, or changes
    the reputation of, a member [acc] only if the ballot returned a
    winning value [v] with [c >= 3] votes, [acc] is in the meetup, votes
    [v], its bundle has at least [c - 1] witnesses and at least [c - 1] of
    them list [acc] back.  The thresholds are the winning bucket's vote
    count minus one, not the winning value minus one.  Otherwise nothing
    is issued and no reputation entry changes. *)
Theorem reward_meetup_requires_count_thresholds li (st : State) (cid : CurrencyIdentifier)
    (cindex : CeremonyIndexType) (m : Z) :
  let st' := reward_meetup li st cid cindex m in
  let cc := (cid, cindex) in
  let rewarded acc :=
    exists v c, ballot_meetup_n_votes st cid cindex m = Some (v, c) /\ 3 <= c /\
      In acc (get_meetup_registry st cc m) /\ reward_thresholds_met st cc v c acc in
  (exists new, issued st' = issued st ++ new /\
     forall cid' acc r, In (cid', acc, r) new -> cid' = cid /\ rewarded acc) /\
  (forall key, participant_reputation st' !! key <> participant_reputation st !! key ->
     exists acc, key = (cc, acc) /\ rewarded acc).
Proof.
  intros st' cc rewarded. subst st' rewarded cc. unfold reward_meetup.
  destruct (ballot_meetup_n_votes st cid cindex m) as [[v c]|] eqn:Hb.
  - pose proof (ballot_range _ _ _ _ _ _ Hb) as Hc.
    destruct (reward_fold li cid cindex v c (get_meetup_registry st (cid, cindex) m) st st Hc eq_refl)
      as (_ & (new & Hn & Hnew) & Hkey).
    split.
    + exists new. split; [done|]. intros cid' acc r Hin.
      destruct (Hnew _ _ _ Hin) as (? & ? & ?). split; [done|].
      exists v, c. split; [done|]. split; [lia|]. split; done.
    + intros key Hk. destruct (Hkey key Hk) as (acc & ? & ? & ?). exists acc. split; [done|].
      exists v, c. split; [done|]. split; [lia|]. split; done.
  - split; [exists []; rewrite app_nil_r; split; [done|intros ? ? ? []]|].
    intros key Hk. congruence.
Qed.

(** ** Ballot tie-break *)

Lemma tally_votes_meetup_votes st cc ps :
  tally_votes st cc ps = fold_left tally_step (meetup_votes st cc ps) [].
Proof.
  unfold tally_votes, meetup_votes. generalize (@nil (Z * Z)).
  induction ps as [|p ps IH]; intros acc; simpl; [done|].
  destruct (0 <? get_meetup_participant_count_vote st cc p); simpl; apply IH.
Qed.

Lemma existsb_Zeqb_In (x : Z) (l : list Z) : existsb (Z.eqb x) l = true <-> In x l.
Proof.
  rewrite existsb_exists. split.
  - intros (y & Hy & Heq). apply Z.eqb_eq in Heq. subst. done.
  - intros Hx. exists x. split; [done|]. apply Z.eqb_refl.
Qed.

Lemma first_seen_app vs x :
  first_seen (vs ++ [x]) =
  if existsb (Z.eqb x) (first_seen vs) then first_seen vs else first_seen vs ++ [x].
Proof. unfold first_seen. rewrite fold_left_app. done. Qed.

Lemma first_seen_In vs x : In x (first_seen vs) <-> In x vs.
Proof.
  revert x. induction vs as [|v vs IH] using rev_ind; intros x; [done|].
  rewrite first_seen_app, in_app_iff. simpl.
  destruct (existsb (Z.eqb v) (first_seen vs)) eqn:He.
  - apply existsb_Zeqb_In in He. apply IH in He. rewrite IH.
    split; [auto|]. intros [Hx|[<-|[]]]; done.
  - rewrite in_app_iff, IH. simpl. done.
Qed.

Lemma first_seen_NoDup vs : NoDup (first_seen vs).
Proof.
  induction vs as [|v vs IH] using rev_ind; [constructor|].
  rewrite first_seen_app.
  destruct (existsb (Z.eqb v) (first_seen vs)) eqn:He; [done|].
  apply NoDup_app. split; [done|]. split; [|apply NoDup_singleton].
  intros y Hy Hy'. apply list_elem_of_singleton in Hy'. subst.
  apply list_elem_of_In, existsb_Zeqb_In in Hy. congruence.
Qed.

Lemma votes_for_app_same vs x :
  votes_for (vs ++ [x]) x = u32_add (votes_for vs x) 1.
Proof.
  unfold votes_for, u32_add. rewrite count_occ_app. simpl.
  destruct (Z.eq_dec x x) as [_|]; [|done].
  rewrite Zplus_mod_idemp_l. f_equal. lia.
Qed.

Lemma votes_for_app_other vs x y :
  y <> x -> votes_for (vs ++ [x]) y = votes_for vs y.
Proof.
  intros Hne. unfold votes_for. rewrite count_occ_app. simpl.
  destruct (Z.eq_dec x y) as [|_]; [congruence|]. f_equal. lia.
Qed.

Lemma votes_for_new vs x : ~ In x vs -> votes_for (vs ++ [x]) x = 1.
Proof.
  intros Hn. rewrite votes_for_app_same. unfold votes_for.
  rewrite (proj1 (count_occ_not_In Z.eq_dec vs x) Hn). reflexivity.
Qed.

Lemma position_vote_absent (g : Z -> Z) x (L : list Z) :
  ~ In x L -> position_vote x (map (fun v => (v, g v)) L) = None.
Proof.
  induction L as [|a L IH]; intros Hn; simpl; [done|].
  destruct (Z.eqb_spec a x) as [->|Hne]; [simpl in Hn; tauto|].
  rewrite IH; [done|]. simpl in Hn. tauto.
Qed.

Lemma position_vote_alter (g : Z -> Z) x (L : list Z) :
  In x L -> NoDup L ->
  exists i, position_vote x (map (fun v => (v, g v)) L) = Some i /\
    alter (fun nc : Z * Z => (nc.1, u32_add nc.2 1)) i (map (fun v => (v, g v)) L) =
    map (fun v => (v, if v =? x then u32_add (g v) 1 else g v)) L.
Proof.
  induction L as [|a L IH]; intros Hin Hnd; [done|].
  apply NoDup_cons in Hnd as [Ha Hnd]. simpl.
  destruct (Z.eqb_spec a x) as [->|Hne].
  - exists 0%nat. split; [done|]. simpl. f_equal.
    apply map_ext_in. intros y Hy. destruct (Z.eqb_spec y x) as [->|]; [|done].
    exfalso. apply Ha. by apply list_elem_of_In.
  - destruct Hin as [->|Hin]; [done|].
    destruct (IH Hin Hnd) as (i & Hp & Ha'). exists (S i). rewrite Hp. split; [done|].
    simpl. f_equal. exact Ha'.
Qed.

(** The tally lists each distinct vote with its (wrapping) count, the
    most recently first-seen value first. *)
Lemma tally_first_seen vs :
  fold_left tally_step vs [] = map (fun v => (v, votes_for vs v)) (rev (first_seen vs)).
Proof.
  induction vs as [|x vs IH] using rev_ind; [done|].
  rewrite fold_left_app. simpl. rewrite IH, first_seen_app.
  destruct (existsb (Z.eqb x) (first_seen vs)) eqn:He.
  - apply existsb_Zeqb_In in He.
    destruct (position_vote_alter (votes_for vs) x (rev (first_seen vs))) as (i & Hp & Ha).
    { by apply in_rev in He. }
    { apply NoDup_ListNoDup, List.NoDup_rev, NoDup_ListNoDup, first_seen_NoDup. }
    unfold tally_step. rewrite Hp, Ha. apply map_ext. intros y.
    destruct (Z.eqb_spec y x) as [->|Hne].
    + rewrite votes_for_app_same. done.
    + rewrite votes_for_app_other; done.
  - assert (Hn : ~ In x vs).
    { intros Hx. apply first_seen_In, existsb_Zeqb_In in Hx. congruence. }
    unfold tally_step. rewrite position_vote_absent.
    2:{ rewrite <- in_rev, first_seen_In. done. }
    rewrite rev_app_distr. simpl. rewrite votes_for_new by done. f_equal.
    apply map_ext_in. intros y Hy. rewrite votes_for_app_other; [done|].
    intros Heq. subst y. rewrite <- in_rev, first_seen_In in Hy. contradiction.
Qed.

Lemma insert_by_count_desc_not_nil x l : insert_by_count_desc x l <> [].
Proof. destruct l; simpl; [done|]. destruct (_ <? _); done. Qed.

Lemma sort_by_count_desc_app l x :
  sort_by_count_desc (l ++ [x]) = insert_by_count_desc x (sort_by_count_desc l).
Proof. unfold sort_by_count_desc. rewrite fold_left_app. done. Qed.

Lemma sort_by_count_desc_nil l : sort_by_count_desc l = [] -> l = [].
Proof.
  destruct l as [|x l' _] using rev_ind; [done|].
  rewrite sort_by_count_desc_app. intros H. by apply insert_by_count_desc_not_nil in H.
Qed.

(** The stable sort puts first the first element of maximal count. *)
Lemma sort_by_count_desc_head l h rest :
  sort_by_count_desc l = h :: rest ->
  exists l1 l2, l = l1 ++ h :: l2 /\ (forall y, In y l1 -> y.2 < h.2) /\
    (forall y, In y l -> y.2 <= h.2).
Proof.
  revert h rest. induction l as [|x l IH] using rev_ind; intros h rest Hs; [done|].
  rewrite sort_by_count_desc_app in Hs.
  destruct (sort_by_count_desc l) as [|h0 r0] eqn:Hl.
  - apply sort_by_count_desc_nil in Hl. subst. simpl in Hs. injection Hs as <- <-.
    exists [], []. split; [done|]. split; [intros ? []|]. intros y [<-|[]]. lia.
  - destruct (IH h0 r0 eq_refl) as (l1 & l2 & Hsplit & Hlt & Hle).
    simpl in Hs. destruct (Z.ltb_spec h0.2 x.2) as [Hx|Hx]; injection Hs as <- <-.
    + exists l, []. split; [done|]. split.
      * intros y Hy. specialize (Hle y Hy). lia.
      * intros y Hy. apply in_app_iff in Hy as [Hy|[<-|[]]]; [|lia]. specialize (Hle y Hy). lia.
    + exists l1, (l2 ++ [x]). split; [rewrite Hsplit, <- app_assoc; done|]. split; [done|].
      intros y Hy. apply in_app_iff in Hy as [Hy|[<-|[]]]; [|lia]. auto.
Qed.

(** C2 (as corrected): when the ballot of meetup [m] returns [(v, c)],
    [v] is one of the positive votes [vs] of the members, [c] is its vote
    count, no value has more votes, and every other value tied with [v]
    at [c] votes occurs for the first time in [vs] before [v] does: ties
    go to the value whose first occurrence in member order is the latest,
    the one the tally placed last (new buckets are prepended). *)
Theorem ballot_tie_goes_to_latest_first_seen (st : State) (cid : CurrencyIdentifier)
    (cindex : CeremonyIndexType) (m v c : Z) :
  ballot_meetup_n_votes st cid cindex m = Some (v, c) ->
  let vs := meetup_votes st (cid, cindex) (get_meetup_registry st (cid, cindex) m) in
  In v vs /\ c = votes_for vs v /\
  (forall v', In v' vs -> votes_for vs v' <= c) /\
  (forall v', In v' vs -> v' <> v -> votes_for vs v' = c ->
     exists pre mid post, first_seen vs = pre ++ v' :: mid ++ v :: post).
Proof.
  intros Hb vs. unfold ballot_meetup_n_votes in Hb.
  rewrite tally_votes_meetup_votes, tally_first_seen in Hb. fold vs in Hb.
  remember (map (fun v0 => (v0, votes_for vs v0)) (rev (first_seen vs))) as T eqn:HT.
  destruct T as [|t ts]; [done|].
  destruct (sort_by_count_desc (t :: ts)) as [|[n' c'] rest] eqn:Hs; [done|].
  destruct (Z.ltb_spec c' 3); simplify_eq.
  set (T := t :: ts) in *.
  destruct (sort_by_count_desc_head _ _ _ Hs) as (l1 & l2 & Hsplit & Hlt & Hle). simpl in Hlt, Hle.
  assert (HinT : forall w, In w vs -> In (w, votes_for vs w) T).
  { intros w Hw. rewrite HT. apply in_map_iff. exists w. split; [done|].
    rewrite <- in_rev, first_seen_In. done. }
  assert (Hvc : In (v, c) T) by (rewrite Hsplit; apply in_app_iff; right; left; done).
  rewrite HT in Hvc, Hsplit. apply in_map_iff in Hvc as (w & Hw & Hwin). injection Hw as -> <-.
  rewrite <- in_rev, first_seen_In in Hwin.
  split; [done|]. split; [done|]. split.
  { intros v' Hv'. apply (Hle (v', votes_for vs v')). by apply HinT. }
  intros v' Hv' Hne Htie.
  pose proof (HinT v' Hv') as Hv'T. rewrite HT, Hsplit in Hv'T.
  apply map_eq_app in Hsplit as (a & b & Hab & Ha & Hb').
  apply map_eq_cons in Hb' as (x & b1 & -> & Hx & Hb1).
  injection Hx as -> _.
  apply in_app_iff in Hv'T as [Hl1|[Heq|Hl2]].
  - apply Hlt in Hl1. simpl in Hl1. lia.
  - injection Heq as Heq _. congruence.
  - rewrite <- Hb1 in Hl2. apply in_map_iff in Hl2 as (y & Hy & Hyin).
    injection Hy as -> _.
    apply in_split in Hyin as (c1 & c2 & ->).
    exists (rev c2), (rev c1), (rev a).
    apply (f_equal (@rev Z)) in Hab. rewrite rev_involutive in Hab. rewrite Hab.
    rewrite !rev_app_distr. simpl. rewrite !rev_app_distr. simpl.
    rewrite <- !app_assoc. reflexivity.
Qed.

(** ** Duplicate attestations *)

Lemma repeat_app_cons {A} (x : A) k acc : repeat x k ++ x :: acc = x :: repeat x k ++ acc.
Proof. induction k as [|k IH]; simpl; [done|]. rewrite IH. done. Qed.

Lemma filter_attestations_repeat verify geo hav st cid cindex mi ps loc t a k acc n0 :
  attestation_accepted verify geo hav st cid cindex mi ps loc t a = true ->
  fold_left (fun '(verified, claim_n_participants) attestation =>
    if attestation_accepted verify geo hav st cid cindex mi ps loc t attestation
    then (public attestation :: verified, number_of_participants_confirmed (claim attestation))
    else (verified, claim_n_participants))
    (repeat a k) (acc, n0)
  = (repeat (public a) k ++ acc,
     match k with O => n0 | S _ => number_of_participants_confirmed (claim a) end).
Proof.
  intros Ha. revert acc n0. induction k as [|k IH]; intros acc n0; [done|].
  simpl. rewrite Ha, IH, repeat_app_cons. destruct k; done.
Qed.

Lemma count_reciprocating_repeat st cc p w k :
  count_reciprocating st cc p (repeat w k) =
  if contains (bundle_of st cc w) p then k else 0%nat.
Proof.
  unfold count_reciprocating, bundle_of.
  destruct (contains _ p) eqn:Hc; induction k as [|k IH]; simpl; try rewrite Hc; simpl; auto.
Qed.

(** C10: [register_attestations] does not deduplicate.  Submitting [k]
    copies of one attestation that passes the per-claim filter (with [k]
    at most the number of the caller's fellow members) succeeds, stores
    the signer [k] times in the caller's bundle, and records the claim's
    headcount as the caller's vote; in that bundle every copy counts,
    towards the witness count ([k]) and towards the reciprocity count
    ([k] whenever the signer's own bundle lists the caller). *)
Theorem register_attestations_keeps_duplicates verify geo hav moment (env : Env) (st : State)
    (sender : AccountId) (a : Attestation) (k : nat) (loc : Location) (t : Z) :
  let cid := claim_currency_identifier (claim a) in
  let cindex := current_ceremony_index env in
  let cc := (cid, cindex) in
  let mi := get_meetup_index st cc sender in
  let ps := get_meetup_registry st cc mi in
  let others := List.filter (fun x => negb (x =? sender)%nat) ps in
  current_phase env = ATTESTING ->
  contains (currency_identifiers env) cid = true ->
  contains ps sender = true ->
  (1 <= k <= length others)%nat ->
  get_meetup_location env cid mi = Some loc ->
  get_meetup_time moment env cid mi = Some t ->
  attestation_accepted verify geo hav st cid cindex mi others loc t a = true ->
  get_attestation_count st cc + 1 < u64_modulus ->
  exists st',
    register_attestations verify geo hav moment env st sender (repeat a k) = Ok st' /\
    bundle_of st' cc sender = repeat (public a) k /\
    get_meetup_participant_count_vote st' cc sender = number_of_participants_confirmed (claim a) /\
    length (bundle_of st' cc sender) = k /\
    count_reciprocating st' cc sender (bundle_of st' cc sender) =
      (if contains (bundle_of st' cc (public a)) sender then k else 0%nat).
Proof.
  intros cid cindex cc mi ps others Hph Hcid Hin Hk Hloc Htime Hacc Hcnt.
  destruct k as [|k]; [lia|].
  unfold register_attestations.
  rewrite decide_False by tauto.
  cbn [repeat]. fold cid cindex cc mi ps.
  rewrite Hcid, Hin. cbn [negb]. fold others.
  rewrite (proj2 (Nat.leb_le (length (a :: repeat a k)) (length others)))
    by (simpl; rewrite repeat_length; lia).
  cbn [negb]. rewrite Hloc, Htime.
  unfold filter_attestations. change (a :: repeat a k) with (repeat a (S k)).
  rewrite filter_attestations_repeat by exact Hacc.
  rewrite app_nil_r. cbn [repeat].
  unfold u64_checked_add. rewrite (proj2 (Z.ltb_lt _ _) Hcnt).
  destruct (attestation_index st !! (cc, sender)) as [idx|] eqn:Hidx;
    eexists; (split; [reflexivity|]);
    unfold bundle_of, get_attestation_registry, get_attestation_index,
      get_meetup_participant_count_vote; simpl;
    rewrite !lookup_insert_eq; simpl;
    (split; [done|]); (split; [done|]); (split; [simpl; rewrite repeat_length; done|]);
    change (public a :: repeat (public a) k) with (repeat (public a) (S k));
    apply count_reciprocating_repeat.
Qed.

(** ** Meetup assignment *)

Section AssignmentProofs.

Local Open Scope nat_scope.
Local Arguments Nat.div : simpl never.

Lemma div_mod_succ (j k : nat) :
  0 < k ->
  (S (j mod k) < k /\ S j mod k = S (j mod k) /\ S j / k = j / k) \/
  (S (j mod k) = k /\ S j mod k = 0 /\ S j / k = S (j / k)).
Proof.
  intros Hk. pose proof (Nat.div_mod j k ltac:(lia)) as Hd.
  pose proof (Nat.mod_upper_bound j k ltac:(lia)) as Hm.
  destruct (Nat.eq_dec (S (j mod k)) k) as [He|Hne].
  - right. split; [done|].
    assert (Hs : S j = k * S (j / k) + 0) by (rewrite Nat.mul_succ_r; lia).
    split.
    + symmetry. apply (Nat.mod_unique _ _ (S (j / k))); lia.
    + symmetry. apply (Nat.div_unique _ _ _ 0); lia.
  - left. split; [lia|].
    assert (Hs : S j = k * (j / k) + S (j mod k)) by lia.
    split.
    + symmetry. apply (Nat.mod_unique _ _ (j / k)); lia.
    + symmetry. apply (Nat.div_unique _ _ _ (S (j mod k))); lia.
Qed.

Lemma sum_list_alter_S (rs : list nat) idx :
  idx < length rs -> sum_list (alter S idx rs) = S (sum_list rs).
Proof.
  revert idx. induction rs as [|r rs IH]; intros [|idx] H; simpl in *; try lia.
  specialize (IH idx ltac:(lia)). change (list_alter S idx rs) with (alter S idx rs). lia.
Qed.

Lemma lookup_repeat_Some {A} (x y : A) n idx : repeat x n !! idx = Some y -> y = x.
Proof.
  revert idx. induction n as [|n IH]; intros [|idx] H; simpl in *; try discriminate.
  - congruence.
  - eauto.
Qed.

Lemma contains_In (l : list AccountId) a : contains l a = true <-> In a l.
Proof.
  unfold contains. rewrite existsb_exists. split.
  - intros (y & Hy & Heq). apply Nat.eqb_eq in Heq. subst. done.
  - intros Ha. exists a. split; [done|]. apply Nat.eqb_refl.
Qed.

(** The reputable loop: meetup [idx] receives the reputables at the
    positions [j] with [j mod k = idx]; after [j] of them, at least
    [j / k], plus one for the first [j mod k] meetups. *)
Lemma assign_reputables_spec (k : nat) (reps0 : list AccountId) rest i ms rs :
  0 < k -> length ms = k -> length rs = k ->
  (forall x, In x rest -> In x reps0) ->
  (forall idx m r, ms !! idx = Some m -> rs !! idx = Some r ->
     length m = r /\ (forall x, In x m -> In x reps0) /\
     i / k + (if idx <? i mod k then 1 else 0) <= r) ->
  exists ms' rs', assign_reputables k i rest ms rs = Some (ms', rs') /\
    length ms' = k /\ length rs' = k /\ sum_list rs' = sum_list rs + length rest /\
    (forall idx m r, ms' !! idx = Some m -> rs' !! idx = Some r ->
       length m = r /\ (forall x, In x m -> In x reps0) /\
       (i + length rest) / k + (if idx <? (i + length rest) mod k then 1 else 0) <= r).
Proof.
  intros Hk. revert i ms rs.
  induction rest as [|p rest IH]; intros i ms rs Hms Hrs Hrest Hinv.
  - exists ms, rs. simpl. rewrite !Nat.add_0_r. do 4 (split; [done|]). exact Hinv.
  - assert (Hik : i mod k < k) by (apply Nat.mod_upper_bound; lia).
    simpl. unfold vec_push_at, vec_incr_at.
    rewrite Hms, Hrs. rewrite (proj2 (Nat.ltb_lt _ _) Hik). simpl.
    destruct (IH (S i) (alter (fun m => m ++ [p]) (i mod k) ms) (alter S (i mod k) rs))
      as (ms' & rs' & Ha & Hl1 & Hl2 & Hsum & Hinv').
    + rewrite length_alter. done.
    + rewrite length_alter. done.
    + intros x Hx. apply Hrest. right. done.
    + intros idx m r Hm Hr.
      rewrite list_lookup_alter in Hm. rewrite list_lookup_alter in Hr.
      pose proof (div_mod_succ i k Hk) as Hdm.
      case_decide as Hidx.
      * subst idx.
        destruct (ms !! (i mod k)) as [m0|] eqn:Hm0; [|done].
        destruct (rs !! (i mod k)) as [r0|] eqn:Hr0; [|done].
        simpl in Hm, Hr. injection Hm as <-. injection Hr as <-.
        destruct (Hinv _ _ _ Hm0 Hr0) as (Hlen & Hmem & Hb).
        rewrite Nat.ltb_irrefl in Hb.
        split; [rewrite length_app; simpl; lia|]. split.
        { intros x Hx. apply in_app_iff in Hx as [Hx|[<-|[]]]; [auto|]. apply Hrest. left. done. }
        destruct Hdm as [(Hlt & Hmod & Hdiv)|(Heq & Hmod & Hdiv)]; rewrite Hmod, Hdiv.
        -- rewrite (proj2 (Nat.ltb_lt _ _) (Nat.lt_succ_diag_r _)). lia.
        -- simpl. lia.
      * destruct (Hinv _ _ _ Hm Hr) as (Hlen & Hmem & Hb).
        split; [done|]. split; [done|].
        assert (Hidxk : idx < k) by (rewrite <- Hms; eapply lookup_lt_Some; eauto).
        destruct Hdm as [(Hlt & Hmod & Hdiv)|(Heq & Hmod & Hdiv)]; rewrite Hmod, Hdiv.
        -- destruct (Nat.ltb_spec idx (i mod k)), (Nat.ltb_spec idx (S (i mod k))); lia.
        -- destruct (Nat.ltb_spec idx (i mod k)); simpl; lia.
    + exists ms', rs'. split; [exact Ha|]. split; [done|]. split; [done|]. split.
      * rewrite Hsum, sum_list_alter_S by lia. simpl. lia.
      * replace (i + S (length rest)) with (S i + length rest) by lia. exact Hinv'.
Qed.

(** The newbie loop, for any property of a meetup and its reputable
    count that a guarded push of a newbie preserves. *)
Lemma assign_newbies_spec (k : nat) (Q : list AccountId -> nat -> Prop) rest i ms rs :
  0 < k -> length ms = k -> length rs = k ->
  (forall idx m r, ms !! idx = Some m -> rs !! idx = Some r -> Q m r) ->
  (forall m r p, In p rest -> length m < r * 4 / 3 -> Q m r -> Q (m ++ [p]) r) ->
  exists ms', assign_newbies k i rest ms rs = Some ms' /\ length ms' = k /\
    (forall idx m r, ms' !! idx = Some m -> rs !! idx = Some r -> Q m r).
Proof.
  intros Hk. revert i ms.
  induction rest as [|p rest IH]; intros i ms Hms Hrs Hinv Hpush.
  - exists ms. done.
  - assert (Hik : i mod k < k) by (apply Nat.mod_upper_bound; lia).
    destruct (lookup_lt_is_Some_2 ms (i mod k)) as [m0 Hm0]; [lia|].
    destruct (lookup_lt_is_Some_2 rs (i mod k)) as [r0 Hr0]; [lia|].
    simpl. rewrite Hm0, Hr0. simpl.
    destruct (Nat.ltb_spec (length m0) (r0 * 4 / 3)) as [Hlt|Hge].
    + unfold vec_push_at. rewrite Hms, (proj2 (Nat.ltb_lt _ _) Hik). simpl.
      apply IH.
      * rewrite length_alter. done.
      * done.
      * intros idx m r Hm Hr. rewrite list_lookup_alter in Hm. case_decide as Hidx.
        -- subst idx. rewrite Hm0 in Hm. simpl in Hm. injection Hm as <-.
           rewrite Hr0 in Hr. injection Hr as <-.
           apply Hpush; [left; done|done|]. eauto.
        -- eauto.
      * intros m r q Hq. apply Hpush. right. done.
    + apply IH; auto. intros m r q Hq. apply Hpush. right. done.
Qed.

Lemma sum_list_repeat_0 k : sum_list (repeat 0 k) = 0.
Proof. induction k as [|k IH]; simpl; [done|]. rewrite IH. done. Qed.

Lemma filter_none {A} (f : A -> bool) (l : list A) :
  (forall x, In x l -> f x = false) -> List.filter f l = [].
Proof.
  induction l as [|x l IH]; intros H; simpl; [done|].
  rewrite (H x (or_introl eq_refl)). apply IH. intros y Hy. apply H. right. done.
Qed.

Lemma too_small_from_nil {A} i (ms : list (list A)) :
  Forall (fun m => 3 <= length m) ms -> too_small_from i ms = [].
Proof.
  revert i. induction ms as [|m ms IH]; intros i Hf; simpl; [done|].
  inversion Hf as [|? ? Hm Hms]; subst.
  destruct (Nat.ltb_spec (length m) 3); [lia|]. apply IH. done.
Qed.

Lemma div3_four_thirds r : r * 4 / 3 = r + r / 3.
Proof. replace (r * 4) with (r * 3 + r) by lia. apply Nat.div_add_l. lia. Qed.

Lemma div3_add_le a b : a / 3 + b / 3 <= (a + b) / 3.
Proof.
  apply Nat.div_le_lower_bound; [lia|].
  pose proof (Nat.div_mod a 3 ltac:(lia)). pose proof (Nat.div_mod b 3 ltac:(lia)). lia.
Qed.

(** With two meetups or more, each meetup receives at least three
    reputables. *)
Lemma three_per_meetup (R W : nat) :
  (R + Nat.min W (R / 4)) / 12 + 1 <> 1 -> 3 <= R / ((R + Nat.min W (R / 4)) / 12 + 1).
Proof.
  intros Hk. apply Nat.div_le_lower_bound; [lia|].
  pose proof (Nat.div_mod (R + Nat.min W (R / 4)) 12 ltac:(lia)).
  pose proof (Nat.mod_upper_bound (R + Nat.min W (R / 4)) 12 ltac:(lia)).
  pose proof (Nat.div_mod R 4 ltac:(lia)).
  pose proof (Nat.mod_upper_bound R 4 ltac:(lia)).
  lia.
Qed.

Lemma newbie_count_bound (isnb : AccountId -> bool) ms rs :
  Forall2 (fun m r => length (List.filter isnb m) + r <= length m /\ length m <= r * 4 / 3) ms rs ->
  length (List.filter isnb (concat ms)) <= sum_list rs / 3.
Proof.
  induction 1 as [|m r ms rs [H1 H2] Hrest IH]; simpl; [lia|].
  rewrite List.filter_app, length_app. rewrite div3_four_thirds in H2.
  pose proof (div3_add_le r (sum_list rs)). lia.
Qed.

(** The assignment of one community never panics: it returns
    [n_meetups = n / 12 + 1] where [n = R + min(W, R / 4)], and either
    all [n_meetups] meetups, each with at least 3 members, or none; when
    the reputables and newbies are distinct accounts, the newbies placed
    are at most [R / 3]. *)
Lemma assign_meetups_cid_spec (reps newbies : list AccountId) :
  exists ms,
    assign_meetups_cid reps newbies =
      Some ((length reps + Nat.min (length newbies) (length reps / 4)) / 12 + 1, ms) /\
    Forall (fun m => 3 <= length m) ms /\
    (ms = [] \/ length ms = (length reps + Nat.min (length newbies) (length reps / 4)) / 12 + 1) /\
    ((forall x, In x reps -> ~ In x newbies) ->
       length (List.filter (fun x => contains newbies x) (concat ms)) <= length reps / 3).
Proof.
  unfold assign_meetups_cid. cbv zeta.
  set (R := length reps). set (k := (R + Nat.min (length newbies) (R / 4)) / 12 + 1).
  assert (Hk : 0 < k) by lia.
  destruct (assign_reputables_spec k reps reps 0 (repeat [] k) (repeat 0 k) Hk)
    as (ms1 & rs & Ha1 & Hl1 & Hr1 & Hsum & Hinv1).
  { apply repeat_length. }
  { apply repeat_length. }
  { done. }
  { intros idx m r Hm Hr. apply lookup_repeat_Some in Hm, Hr. subst. simpl.
    split; [done|]. split; [intros ? []|].
    rewrite Nat.Div0.div_0_l, Nat.Div0.mod_0_l. destruct idx; simpl; lia. }
  rewrite sum_list_repeat_0 in Hsum. simpl in Hsum. fold R in Hsum.
  set (D := forall x, In x reps -> ~ In x newbies).
  set (isnb := fun x => contains newbies x).
  set (Q := fun m r => r <= length m /\ length m <= r * 4 / 3 /\
                       (D -> length (List.filter isnb m) + r <= length m)).
  destruct (assign_newbies_spec k Q newbies 0 ms1 rs Hk Hl1 Hr1) as (ms2 & Ha2 & Hl2 & Hinv2).
  { intros idx m r Hm Hr. destruct (Hinv1 _ _ _ Hm Hr) as (Hlen & Hmem & _).
    split; [lia|]. split.
    { rewrite div3_four_thirds. lia. }
    intros HD. rewrite filter_none; [simpl; lia|].
    intros x Hx. unfold isnb. destruct (contains newbies x) eqn:Hc; [|done].
    apply contains_In in Hc. exfalso. apply (HD x); auto. }
  { intros m r p Hp Hlt (Hq1 & Hq2 & Hq3). split; [rewrite length_app; lia|].
    split; [rewrite length_app; simpl; lia|].
    intros HD. specialize (Hq3 HD). rewrite List.filter_app, !length_app. simpl.
    replace (isnb p) with true by (symmetry; apply contains_In; done). simpl. lia. }
  rewrite Ha1. simpl. rewrite Ha2. simpl.
  (* the meetups before the purge *)
  assert (Hbound : D -> length (List.filter isnb (concat ms2)) <= R / 3).
  { intros HD. rewrite <- Hsum. apply newbie_count_bound.
    apply Forall2_same_length_lookup. split; [lia|].
    intros idx m r Hm Hr. destruct (Hinv2 _ _ _ Hm Hr) as (_ & Hq2 & Hq3). auto. }
  assert (Hbig : k <> 1 -> Forall (fun m => 3 <= length m) ms2).
  { intros Hk1. apply Forall_lookup. intros idx m Hm.
    assert (Hidx : idx < length rs) by (rewrite Hr1, <- Hl2; eapply lookup_lt_Some; eauto).
    destruct (lookup_lt_is_Some_2 rs idx Hidx) as [r Hr].
    destruct (Hinv2 _ _ _ Hm Hr) as (Hq1 & _ & _).
    assert (Hr1' : ms1 !! idx = Some (default [] (ms1 !! idx))).
    { destruct (lookup_lt_is_Some_2 ms1 idx) as [m1 Hm1]; [lia|]. rewrite Hm1. done. }
    destruct (Hinv1 _ _ _ Hr1' Hr) as (_ & _ & Hlow).
    pose proof (three_per_meetup R (length newbies) Hk1) as H3. fold k in H3.
    simpl in Hlow. fold R in Hlow. destruct (_ <? _) in Hlow; lia. }
  destruct (Nat.eq_dec k 1) as [Hk1|Hk1].
  - destruct ms2 as [|m0 [|m' ms']]; simpl in Hl2; try lia.
    simpl. destruct (Nat.ltb_spec (length m0) 3) as [Hs|Hs].
    + simpl. exists []. split; [done|]. split; [constructor|]. split; [left; done|].
      intros _. simpl. lia.
    + simpl. exists [m0]. split; [done|]. split; [repeat constructor; lia|].
      split; [right; simpl; lia|]. exact Hbound.
  - rewrite too_small_from_nil by auto. simpl.
    exists ms2. split; [done|]. split; [auto|]. split; [right; done|]. exact Hbound.
Qed.

End AssignmentProofs.

(** ** Committing the meetups *)

Lemma meetups_agree_refl cc st : meetups_agree cc st st.
Proof. done. Qed.

Lemma meetups_agree_sym cc st1 st2 : meetups_agree cc st1 st2 -> meetups_agree cc st2 st1.
Proof. intros (H1 & H2 & H3). split; [|split]; auto. Qed.

Lemma meetups_agree_trans cc st1 st2 st3 :
  meetups_agree cc st1 st2 -> meetups_agree cc st2 st3 -> meetups_agree cc st1 st3.
Proof.
  intros (H1 & H2 & H3) (G1 & G2 & G3).
  split; [|split]; [intros j; rewrite H1; auto|intros a; rewrite H2; auto|congruence].
Qed.

Lemma fold_insert_index_lookup (cc : CurrencyCeremony) (idx : Z) (m : list AccountId)
    (M : gmap (CurrencyCeremony * AccountId) Z) (c : CurrencyCeremony) (a : AccountId) :
  fold_left (fun mi p => <[(cc, p) := idx]> mi) m M !! (c, a) =
  if decide (c = cc /\ a ∈ m) then Some idx else M !! (c, a).
Proof.
  revert M. induction m as [|p m IH]; intros M; simpl.
  - case_decide as H; [|done]. destruct H as [_ H]. inversion H.
  - rewrite IH, lookup_insert.
    repeat case_decide; simplify_eq/=; try done; set_solver.
Qed.

Lemma commit_from_participants cc i ms st :
  participant_registry (commit_meetups_from cc i ms st) = participant_registry st /\
  participant_reputation (commit_meetups_from cc i ms st) = participant_reputation st /\
  participant_count (commit_meetups_from cc i ms st) = participant_count st /\
  meetup_count (commit_meetups_from cc i ms st) = meetup_count st.
Proof.
  revert i st. induction ms as [|m ms IH]; intros i st; simpl; [done|].
  rewrite (proj1 (IH _ _)), (proj1 (proj2 (IH _ _))), (proj1 (proj2 (proj2 (IH _ _)))),
    (proj2 (proj2 (proj2 (IH _ _)))). done.
Qed.

Lemma commit_from_registry_below cc i ms st c j :
  (j <= Z.of_nat i \/ c <> cc) ->
  meetup_registry (commit_meetups_from cc i ms st) !! (c, j) = meetup_registry st !! (c, j).
Proof.
  revert i st. induction ms as [|m ms IH]; intros i st Hj; simpl; [done|].
  rewrite IH by (destruct Hj; [left; lia|right; done]). simpl. rewrite lookup_insert_ne; [done|].
  intros Heq. injection Heq as H1 H2. destruct Hj; [lia|congruence].
Qed.

Lemma commit_from_registry_at cc i ms st t m :
  ms !! t = Some m ->
  meetup_registry (commit_meetups_from cc i ms st) !! (cc, Z.of_nat (i + t + 1)) = Some m.
Proof.
  revert i t st. induction ms as [|m0 ms IH]; intros i t st Ht; [done|].
  destruct t as [|t]; simpl in Ht.
  - injection Ht as <-. simpl. rewrite commit_from_registry_below by lia. simpl.
    rewrite Nat.add_0_r. apply lookup_insert_eq.
  - simpl. replace (i + S t + 1)%nat with (S i + t + 1)%nat by lia. apply IH. done.
Qed.

Lemma commit_from_registry_cases cc i ms st c j m :
  meetup_registry (commit_meetups_from cc i ms st) !! (c, j) = Some m ->
  meetup_registry st !! (c, j) = Some m \/
  (c = cc /\ exists t, ms !! t = Some m /\ j = Z.of_nat (i + t + 1)).
Proof.
  revert i st. induction ms as [|m0 ms IH]; intros i st H; simpl in H; [auto|].
  apply IH in H as [H|(-> & t & Ht & ->)].
  - simpl in H. rewrite lookup_insert in H. case_decide as Heq.
    + injection Heq as <- <-. injection H as <-. right. split; [done|].
      exists 0%nat. split; [done|]. f_equal. lia.
    + left. done.
  - right. split; [done|]. exists (S t). split; [done|]. f_equal. lia.
Qed.

Lemma commit_from_index_cases cc i ms st a j :
  meetup_index (commit_meetups_from cc i ms st) !! (cc, a) = Some j ->
  meetup_index st !! (cc, a) = Some j \/
  exists t m, ms !! t = Some m /\ j = Z.of_nat (i + t + 1) /\ a ∈ m.
Proof.
  revert i st. induction ms as [|m0 ms IH]; intros i st H; simpl in H; [auto|].
  apply IH in H as [H|(t & m & Ht & -> & Ha)].
  - simpl in H. rewrite fold_insert_index_lookup in H. case_decide as Hc.
    + injection H as <-. right. exists 0%nat, m0. split; [done|]. split; [f_equal; lia|].
      destruct Hc; done.
    + left. done.
  - right. exists (S t), m. split; [done|]. split; [f_equal; lia|done].
Qed.

Lemma commit_from_frame cc cc' i ms st :
  cc' <> cc -> meetups_agree cc' (commit_meetups_from cc i ms st) st.
Proof.
  intros Hne. revert i st. induction ms as [|m ms IH]; intros i st; simpl; [done|].
  eapply meetups_agree_trans; [apply IH|].
  split; [|split]; simpl.
  - intros j. rewrite lookup_insert_ne; [done|]. congruence.
  - intros a. rewrite fold_insert_index_lookup. case_decide as Hc; [|done]. destruct Hc; congruence.
  - done.
Qed.

Lemma commit_from_agree cc i ms stA stB :
  meetups_agree cc stA stB ->
  meetups_agree cc (commit_meetups_from cc i ms stA) (commit_meetups_from cc i ms stB).
Proof.
  revert i stA stB. induction ms as [|m ms IH]; intros i stA stB (H1 & H2 & H3); simpl; [split; auto|].
  apply IH. split; [|split]; simpl.
  - intros j. rewrite !lookup_insert. case_decide; [done|]. apply H1.
  - intros a. rewrite !fold_insert_index_lookup. case_decide; [done|]. apply H2.
  - done.
Qed.

Lemma commit_participants cc k ms st :
  participant_registry (commit_meetups cc k ms st) = participant_registry st /\
  participant_reputation (commit_meetups cc k ms st) = participant_reputation st /\
  participant_count (commit_meetups cc k ms st) = participant_count st.
Proof.
  unfold commit_meetups. destruct ms as [|m ms]; [done|].
  destruct (commit_from_participants cc 0 (m :: ms) (set_meetups st (meetup_registry st)
    (meetup_index st) (<[cc:=Z.of_nat k]> (meetup_count st)))) as (-> & -> & -> & _). done.
Qed.

Lemma commit_frame cc cc' k ms st :
  cc' <> cc -> meetups_agree cc' (commit_meetups cc k ms st) st.
Proof.
  intros Hne. unfold commit_meetups. destruct ms as [|m ms]; [done|].
  eapply meetups_agree_trans; [apply commit_from_frame; done|].
  split; [|split]; simpl; [done|done|]. rewrite lookup_insert_ne; congruence.
Qed.

Lemma commit_agree cc k ms stA stB :
  meetups_agree cc stA stB ->
  meetups_agree cc (commit_meetups cc k ms stA) (commit_meetups cc k ms stB).
Proof.
  intros (H1 & H2 & H3). unfold commit_meetups. destruct ms as [|m ms]; [split; auto|].
  apply commit_from_agree. split; [|split]; simpl; auto.
  rewrite !lookup_insert_eq. done.
Qed.

(** The meetups committed for [cc] from a state without any for [cc]:
    exactly the meetups [ms], at indices [1..], the reverse index pointing
    into them, and the count [n_meetups]; nothing at all if [ms] is empty. *)
Lemma commit_meetups_result cc k ms st :
  no_meetups_at st cc ->
  let st1 := commit_meetups cc k ms st in
  (forall j m, meetup_registry st1 !! (cc, j) = Some m ->
     exists t, ms !! t = Some m /\ j = Z.of_nat (t + 1)) /\
  (forall t m, ms !! t = Some m -> meetup_registry st1 !! (cc, Z.of_nat (t + 1)) = Some m) /\
  (forall a j, meetup_index st1 !! (cc, a) = Some j ->
     exists t m, ms !! t = Some m /\ j = Z.of_nat (t + 1) /\ a ∈ m) /\
  meetup_count st1 !! cc = (match ms with [] => meetup_count st !! cc | _ => Some (Z.of_nat k) end).
Proof.
  intros (Hr & Hi) st1. subst st1. unfold commit_meetups.
  destruct ms as [|m0 ms].
  - split; [intros j m H; rewrite Hr in H; done|].
    split; [intros t m H; done|]. split; [intros a j H; rewrite Hi in H; done|]. done.
  - set (st0 := set_meetups st (meetup_registry st) (meetup_index st)
                  (<[cc:=Z.of_nat k]> (meetup_count st))).
    split; [|split; [|split]].
    + intros j m H. apply commit_from_registry_cases in H as [H|(_ & t & Ht & ->)].
      * simpl in H. rewrite Hr in H. done.
      * exists t. split; [done|]. f_equal.
    + intros t m Ht. apply (commit_from_registry_at cc 0 _ st0 t m Ht).
    + intros a j H. apply commit_from_index_cases in H as [H|(t & m & Ht & -> & Ha)].
      * simpl in H. rewrite Hi in H. done.
      * exists t, m. split; [done|]. split; [f_equal|done].
    + destruct (commit_from_participants cc 0 (m0 :: ms) st0) as (_ & _ & _ & ->).
      simpl. apply lookup_insert_eq.
Qed.

(** ** The assignment hook *)

Lemma split_participants_ext env st1 st2 cid cindex :
  participant_registry st1 = participant_registry st2 ->
  participant_reputation st1 = participant_reputation st2 ->
  participant_count st1 = participant_count st2 ->
  split_participants env st1 cid cindex = split_participants env st2 cid cindex.
Proof.
  intros H1 H2 H3. unfold split_participants, get_participant_registry,
    get_participant_reputation, get_participant_count.
  rewrite H1, H2, H3. done.
Qed.

Lemma assign_meetups_for_eq env st cid :
  let cc := (cid, current_ceremony_index env) in
  let '(reps, newbies) := split_participants env st cid (current_ceremony_index env) in
  exists k ms, assign_meetups_cid reps newbies = Some (k, ms) /\
    assign_meetups_for env st cid = Some (commit_meetups cc k ms st).
Proof.
  unfold assign_meetups_for. cbv zeta.
  destruct (split_participants env st cid (current_ceremony_index env)) as [reps newbies].
  destruct (assign_meetups_cid_spec reps newbies) as (ms & Ha & _).
  eexists _, ms. rewrite Ha. split; [done|]. done.
Qed.

Lemma assign_meetups_for_participants env st cid st1 :
  assign_meetups_for env st cid = Some st1 ->
  participant_registry st1 = participant_registry st /\
  participant_reputation st1 = participant_reputation st /\
  participant_count st1 = participant_count st.
Proof.
  pose proof (assign_meetups_for_eq env st cid) as He. cbv zeta in He.
  destruct (split_participants _ _ _ _) as [reps newbies].
  destruct He as (k & ms & _ & ->). intros H. injection H as <-. apply commit_participants.
Qed.

Lemma assign_meetups_loop_spec env cids st :
  NoDup cids ->
  exists st', assign_meetups_loop env cids st = Some st' /\
    participant_registry st' = participant_registry st /\
    participant_reputation st' = participant_reputation st /\
    participant_count st' = participant_count st /\
    (forall cid, ~ In cid cids -> meetups_agree (cid, current_ceremony_index env) st' st) /\
    (forall cid st_c, In cid cids -> assign_meetups_for env st cid = Some st_c ->
       meetups_agree (cid, current_ceremony_index env) st' st_c).
Proof.
  revert st. induction cids as [|cid rest IH]; intros st Hnd.
  - exists st. split; [done|]. split; [done|]. split; [done|]. split; [done|].
    split; [intros; done|]. intros cid st_c [].
  - apply NoDup_cons in Hnd as [Hnin Hnd].
    pose proof (assign_meetups_for_eq env st cid) as He. cbv zeta in He.
    destruct (split_participants env st cid (current_ceremony_index env)) as [reps newbies] eqn:Hs.
    destruct He as (k & ms & Hams & Hfor).
    set (st1 := commit_meetups (cid, current_ceremony_index env) k ms st) in Hfor.
    destruct (commit_participants (cid, current_ceremony_index env) k ms st) as (P1 & P2 & P3).
    fold st1 in P1, P2, P3.
    destruct (IH st1 Hnd) as (st' & Hloop & Q1 & Q2 & Q3 & Hframe & Hper).
    exists st'. simpl. rewrite Hfor. simpl. split; [done|].
    split; [congruence|]. split; [congruence|]. split; [congruence|]. split.
    + intros cid0 Hn0. eapply meetups_agree_trans; [apply Hframe; intros H; apply Hn0; right; done|].
      apply commit_frame. intros Heq. injection Heq as ->. apply Hn0. left. done.
    + intros cid' st_c [<-|Hin] Hc.
      * rewrite Hfor in Hc. injection Hc as <-.
        apply Hframe. intros H. apply Hnin, list_elem_of_In. done.
      * assert (Hne : cid' <> cid) by (intros ->; apply Hnin, list_elem_of_In; done).
        pose proof (assign_meetups_for_eq env st cid') as He'. cbv zeta in He'.
        pose proof (assign_meetups_for_eq env st1 cid') as He1. cbv zeta in He1.
        rewrite (split_participants_ext env st1 st cid' _ P1 P2 P3) in He1.
        destruct (split_participants env st cid' (current_ceremony_index env)) as [r' n'].
        destruct He' as (k' & ms' & Ha' & Hf'). destruct He1 as (k1 & ms1 & Ha1 & Hf1).
        rewrite Ha' in Ha1. injection Ha1 as <- <-.
        rewrite Hf' in Hc. injection Hc as <-.
        eapply meetups_agree_trans; [apply (Hper cid' _ Hin Hf1)|].
        apply commit_agree. apply commit_frame. intros Heq. injection Heq as ->. done.
Qed.

(** The hook's outcome for one community, read on the state it started from. *)
Lemma assign_meetups_outcome env st :
  NoDup (currency_identifiers env) ->
  exists st', assign_meetups env st = Some st' /\
    forall cid, In cid (currency_identifiers env) ->
      exists reps newbies k ms,
        split_participants env st cid (current_ceremony_index env) = (reps, newbies) /\
        assign_meetups_cid reps newbies = Some (k, ms) /\
        meetups_agree (cid, current_ceremony_index env) st'
          (commit_meetups (cid, current_ceremony_index env) k ms st).
Proof.
  intros Hnd. destruct (assign_meetups_loop_spec env _ st Hnd) as (st' & Hl & _ & _ & _ & _ & Hper).
  exists st'. split; [exact Hl|]. intros cid Hin.
  pose proof (assign_meetups_for_eq env st cid) as He. cbv zeta in He.
  destruct (split_participants env st cid (current_ceremony_index env)) as [reps newbies].
  destruct He as (k & ms & Ha & Hf). exists reps, newbies, k, ms.
  split; [done|]. split; [done|]. apply (Hper cid _ Hin Hf).
Qed.

(** ** Assignment properties *)

Section AssignmentTheorems.

Local Arguments Nat.div : simpl never.

(** C3 (as corrected): for one community with reputables [reps] and
    newbies [newbies] (distinct accounts), the assignment places at most
    [length reps / 3] newbies in the meetups it keeps: each meetup takes
    newbies while its size is below four thirds of its reputables.  The
    bound [min(W, R / 4)] only enters the number of meetups. *)
Theorem assign_meetups_cid_newbies_le_third (reps newbies : list AccountId) :
  (forall x, In x reps -> ~ In x newbies) ->
  exists n_meetups ms, assign_meetups_cid reps newbies = Some (n_meetups, ms) /\
    (length (List.filter (fun x => contains newbies x) (concat ms)) <= length reps / 3)%nat.
Proof.
  intros HD. destruct (assign_meetups_cid_spec reps newbies) as (ms & Ha & _ & _ & Hb).
  eexists _, ms. split; [exact Ha|]. apply Hb. exact HD.
Qed.

(** C4: for distinct communities with no meetups stored yet for the
    current ceremony, the assignment hook does not panic, every meetup it
    stores has at least 3 members, and every account it assigns to a
    meetup is a member of that stored meetup (so members of discarded
    meetups get no assignment). *)
Theorem assign_meetups_stored_meetups_have_three (env : Env) (st : State) :
  NoDup (currency_identifiers env) ->
  (forall cid, In cid (currency_identifiers env) ->
     no_meetups_at st (cid, current_ceremony_index env)) ->
  exists st', assign_meetups env st = Some st' /\
    forall cid, In cid (currency_identifiers env) ->
      let cc := (cid, current_ceremony_index env) in
      (forall j m, meetup_registry st' !! (cc, j) = Some m -> (3 <= length m)%nat) /\
      (forall a j, meetup_index st' !! (cc, a) = Some j ->
         exists m, meetup_registry st' !! (cc, j) = Some m /\ In a m).
Proof.
  intros Hnd Hempty. destruct (assign_meetups_outcome env st Hnd) as (st' & Ha & Hout).
  exists st'. split; [done|]. intros cid Hin cc. subst cc.
  destruct (Hout cid Hin) as (reps & newbies & k & ms & _ & Hams & (A1 & A2 & _)).
  destruct (assign_meetups_cid_spec reps newbies) as (ms' & Hams' & Hbig & _ & _).
  rewrite Hams in Hams'. injection Hams' as _ Hms. subst ms'.
  destruct (commit_meetups_result _ k ms st (Hempty cid Hin)) as (R1 & R2 & R3 & _).
  split.
  - intros j m H. rewrite A1 in H. destruct (R1 _ _ H) as (t & Ht & _).
    rewrite Forall_lookup in Hbig. eapply Hbig; eauto.
  - intros a j H. rewrite A2 in H. destruct (R3 _ _ H) as (t & m & Ht & -> & Ham).
    exists m. rewrite A1. split; [apply R2; done|]. apply list_elem_of_In. done.
Qed.

(** C5: under the same conditions, for every community either some
    meetups are stored, at exactly the indices [1..N] where [N >= 1] is
    the stored meetup count, or none is: then the meetup count is left as
    it was and no meetup and no assignment is stored. *)
Theorem assign_meetups_count_matches_stored (env : Env) (st : State) :
  NoDup (currency_identifiers env) ->
  (forall cid, In cid (currency_identifiers env) ->
     no_meetups_at st (cid, current_ceremony_index env)) ->
  exists st', assign_meetups env st = Some st' /\
    forall cid, In cid (currency_identifiers env) ->
      let cc := (cid, current_ceremony_index env) in
      (exists N, 1 <= N /\ meetup_count st' !! cc = Some N /\
         forall j, is_Some (meetup_registry st' !! (cc, j)) <-> 1 <= j <= N) \/
      (meetup_count st' !! cc = meetup_count st !! cc /\ no_meetups_at st' cc).
Proof.
  intros Hnd Hempty. destruct (assign_meetups_outcome env st Hnd) as (st' & Ha & Hout).
  exists st'. split; [done|]. intros cid Hin cc. subst cc.
  destruct (Hout cid Hin) as (reps & newbies & k & ms & _ & Hams & (A1 & A2 & A3)).
  destruct (assign_meetups_cid_spec reps newbies) as (ms' & Hams' & _ & Hlen & _).
  rewrite Hams in Hams'. injection Hams' as Hk Hms. subst ms'. rewrite <- Hk in Hlen.
  destruct (commit_meetups_result _ k ms st (Hempty cid Hin)) as (R1 & R2 & R3 & R4).
  destruct ms as [|m0 ms0].
  - right. split; [rewrite A3, R4; done|]. split.
    + intros j. rewrite A1.
      destruct (meetup_registry _ !! _) as [m|] eqn:E; [|done].
      destruct (R1 _ _ E) as (t & Ht & _). done.
    + intros a. rewrite A2.
      destruct (meetup_index _ !! _) as [j|] eqn:E; [|done].
      destruct (R3 _ _ E) as (t & m & Ht & _). done.
  - left. destruct Hlen as [Hnil|Hlen]; [done|].
    exists (Z.of_nat k). split; [simpl in Hlen; lia|]. split; [rewrite A3, R4; done|].
    intros j. rewrite A1. split.
    + intros [m H]. destruct (R1 _ _ H) as (t & Ht & ->). apply lookup_lt_Some in Ht. lia.
    + intros Hj. destruct (lookup_lt_is_Some_2 (m0 :: ms0) (Z.to_nat j - 1)) as [m Hm]; [lia|].
      exists m. replace j with (Z.of_nat (Z.to_nat j - 1 + 1)) by lia. apply R2. done.
Qed.

End AssignmentTheorems.

(** * Further properties *)

(** ** The participant registry *)

Lemma register_participant_ok_shape verify env st sender cid proof st' :
  register_participant verify env st sender cid proof = Ok st' ->
  let cc := (cid, current_ceremony_index env) in
  participant_index st !! (cc, sender) = None /\
  exists rep, st' = set_participants st
     (<[(cc, get_participant_count st cc + 1) := sender]> (participant_registry st))
     (<[(cc, sender) := get_participant_count st cc + 1]> (participant_index st))
     (<[cc := get_participant_count st cc + 1]> (participant_count st)) rep.
Proof.
  unfold register_participant, u64_checked_add. intros H.
  repeat (case_match; simplify_eq/=);
    (split; [|eexists; reflexivity]);
    match goal with
    | Hb : bool_decide (is_Some _) = false |- _ =>
        apply bool_decide_eq_false in Hb; apply eq_None_not_Some; exact Hb
    end.
Qed.

Lemma participants_consistent_register verify env st sender cid proof st' cc :
  participants_consistent st cc ->
  register_participant verify env st sender cid proof = Ok st' ->
  participants_consistent st' cc.
Proof.
  intros (Hn & Hinv & Hrange) Hok.
  apply register_participant_ok_shape in Hok as (Hnone & rep & ->).
  set (c0 := (cid, current_ceremony_index env)) in *.
  set (N := get_participant_count st c0) in *.
  unfold participants_consistent, get_participant_count in *; simpl.
  destruct (decide (cc = c0)) as [->|Hne].
  - rewrite lookup_insert_eq. fold N in Hn, Hrange |- *. simpl.
    split; [lia|]. split.
    + intros i a. rewrite !lookup_insert.
      destruct (decide ((c0, N + 1) = (c0, i))) as [Hi|Hi];
        destruct (decide ((c0, sender) = (c0, a))) as [Ha|Ha]; simplify_eq/=.
      * done.
      * split; [congruence|]. intros Hia. apply Hinv in Hia.
        assert (Hs : is_Some (participant_registry st !! (c0, N + 1))) by (rewrite Hia; eauto).
        apply Hrange in Hs. lia.
      * split; [|congruence]. intros Hia. apply Hinv in Hia. congruence.
      * apply Hinv.
    + intros i. rewrite lookup_insert.
      destruct (decide ((c0, N + 1) = (c0, i))) as [Hi|Hi]; simplify_eq/=.
      * split; [lia|eauto].
      * rewrite Hrange. assert (i <> N + 1) by congruence. lia.
  - rewrite lookup_insert_ne by congruence. split; [done|]. split.
    + intros i a. rewrite !lookup_insert_ne by congruence. apply Hinv.
    + intros i. rewrite lookup_insert_ne by congruence. apply Hrange.
Qed.

Lemma participants_consistent_ext st1 st2 cc :
  (forall i, participant_registry st1 !! (cc, i) = participant_registry st2 !! (cc, i)) ->
  (forall a, participant_index st1 !! (cc, a) = participant_index st2 !! (cc, a)) ->
  participant_count st1 !! cc = participant_count st2 !! cc ->
  participants_consistent st1 cc -> participants_consistent st2 cc.
Proof.
  intros H1 H2 H3. unfold participants_consistent, get_participant_count.
  rewrite H3. setoid_rewrite H1. setoid_rewrite H2. done.
Qed.

Lemma grant_reputation_fields env st sender cid reputable st' :
  grant_reputation env st sender cid reputable = Ok st' ->
  non_reward_fields st' = non_reward_fields st /\ issued st' = issued st.
Proof. unfold grant_reputation. intros H. repeat (case_match; simplify_eq/=). done. Qed.

Lemma register_attestations_participants verify geo hav moment env st sender atts st' :
  register_attestations verify geo hav moment env st sender atts = Ok st' ->
  participant_registry st' = participant_registry st /\
  participant_index st' = participant_index st /\
  participant_count st' = participant_count st /\
  participant_reputation st' = participant_reputation st /\
  meetup_registry st' = meetup_registry st /\
  meetup_index st' = meetup_index st /\
  meetup_count st' = meetup_count st /\
  issued st' = issued st.
Proof.
  unfold register_attestations. intros H.
  repeat (case_match; simplify_eq/=); done.
Qed.

Lemma execute_preserves verify geo hav moment env (P : State -> Prop) :
  (forall st c st', P st -> dispatch verify geo hav moment env st c = Ok st' -> P st') ->
  forall calls st, P st -> P (execute verify geo hav moment env st calls).1.
Proof.
  intros Hstep calls. induction calls as [|c cs IH]; intros st Hst; simpl; [done|].
  destruct (dispatch verify geo hav moment env st c) as [st1|e] eqn:Hd; simpl.
  - pose proof (IH st1 (Hstep _ _ _ Hst Hd)) as IH1.
    destruct (execute verify geo hav moment env st1 cs) as [st_end oks]. exact IH1.
  - pose proof (IH st Hst) as IH1.
    destruct (execute verify geo hav moment env st cs) as [st_end oks]. exact IH1.
Qed.

Lemma commit_meetups_from_non_meetup cc i ms st :
  non_meetup_fields (commit_meetups_from cc i ms st) = non_meetup_fields st.
Proof.
  revert i st. induction ms as [|m ms IH]; intros i st; simpl; [done|]. rewrite IH. done.
Qed.

Lemma commit_meetups_non_meetup cc k ms st :
  non_meetup_fields (commit_meetups cc k ms st) = non_meetup_fields st.
Proof.
  unfold commit_meetups. destruct ms as [|m ms]; [done|].
  rewrite commit_meetups_from_non_meetup. done.
Qed.

Lemma assign_meetups_loop_non_meetup env cids st st' :
  assign_meetups_loop env cids st = Some st' -> non_meetup_fields st' = non_meetup_fields st.
Proof.
  revert st. induction cids as [|cid cids IH]; intros st H; simpl in H; [congruence|].
  destruct (assign_meetups_for env st cid) as [st1|] eqn:Hf; [|done]. simpl in H.
  rewrite (IH _ H). revert Hf. unfold assign_meetups_for.
  destruct (split_participants _ _ _ _) as [reps newbies].
  destruct (assign_meetups_cid reps newbies) as [[k ms]|]; simpl; [|done].
  intros Hf. injection Hf as <-. apply commit_meetups_non_meetup.
Qed.

Lemma reward_participant_non_reward li cid cindex v c st p :
  non_reward_fields (reward_participant li cid cindex v c st p) = non_reward_fields st.
Proof. unfold reward_participant. repeat case_match; done. Qed.

Lemma reward_fold_non_reward li cid cindex v c ps st :
  non_reward_fields (fold_left (reward_participant li cid cindex v c) ps st) = non_reward_fields st.
Proof.
  revert st. induction ps as [|p ps IH]; intros st; simpl; [done|].
  rewrite IH. apply reward_participant_non_reward.
Qed.

Lemma reward_meetup_non_reward li st cid cindex m :
  non_reward_fields (reward_meetup li st cid cindex m) = non_reward_fields st.
Proof.
  unfold reward_meetup. destruct (ballot_meetup_n_votes _ _ _ _) as [[v c]|]; [|done].
  apply reward_fold_non_reward.
Qed.

Lemma reward_meetups_non_reward li cid cindex ms st :
  non_reward_fields (fold_left (fun st m => reward_meetup li st cid cindex m) ms st) =
  non_reward_fields st.
Proof.
  revert st. induction ms as [|m ms IH]; intros st; simpl; [done|].
  rewrite IH. apply reward_meetup_non_reward.
Qed.

Lemma issue_rewards_non_reward li env st :
  non_reward_fields (issue_rewards li env st) = non_reward_fields st.
Proof.
  unfold issue_rewards. case_decide; [done|].
  generalize st. induction (currency_identifiers env) as [|cid cids IH]; intros st0; simpl; [done|].
  rewrite IH. apply reward_meetups_non_reward.
Qed.

Lemma purge_cid_agree st cc cc' :
  cc' <> cc -> ceremony_agree cc' (purge_cid st cc) st.
Proof.
  intros Hne. unfold ceremony_agree, meetups_agree, purge_cid; simpl.
  repeat split; intros;
    first [ rewrite remove_prefix_lookup_other by done; done
          | rewrite lookup_insert_ne by congruence; done ].
Qed.

Lemma ceremony_agree_trans cc st1 st2 st3 :
  ceremony_agree cc st1 st2 -> ceremony_agree cc st2 st3 -> ceremony_agree cc st1 st3.
Proof.
  intros (A1 & A2 & A3 & A4 & A5 & A6 & A7 & A8) (B1 & B2 & B3 & B4 & B5 & B6 & B7 & B8).
  split; [intros; rewrite A1; auto|]. split; [intros; rewrite A2; auto|].
  split; [congruence|]. split; [eapply meetups_agree_trans; eauto|].
  split; [intros; rewrite A5; auto|]. split; [intros; rewrite A6; auto|].
  split; [congruence|]. intros; rewrite A8; auto.
Qed.

Lemma purge_registry_agree env st k cc :
  (forall cid, In cid (currency_identifiers env) -> cc <> (cid, k)) ->
  ceremony_agree cc (purge_registry env st k) st.
Proof.
  unfold purge_registry. generalize st.
  induction (currency_identifiers env) as [|cid cids IH]; intros st0 Hcc; simpl.
  - repeat split; done.
  - eapply ceremony_agree_trans; [apply IH; intros c Hc; apply Hcc; right; done|].
    apply purge_cid_agree. apply Hcc. left. done.
Qed.

Lemma purge_registry_fields env st k :
  participant_reputation (purge_registry env st k) = participant_reputation st /\
  ceremony_reward (purge_registry env st k) = ceremony_reward st /\
  location_tolerance (purge_registry env st k) = location_tolerance st /\
  time_tolerance (purge_registry env st k) = time_tolerance st /\
  issued (purge_registry env st k) = issued st.
Proof.
  unfold purge_registry. generalize st.
  induction (currency_identifiers env) as [|cid cids IH]; intros st0; simpl; [done|].
  destruct (IH (purge_cid st0 (cid, k))) as (-> & -> & -> & -> & ->). done.
Qed.

Lemma participants_consistent_cleared st cc :
  ceremony_cleared st cc -> participants_consistent st cc.
Proof.
  intros (H1 & H2 & H3 & _). unfold participants_consistent, get_participant_count.
  rewrite H3. simpl. split; [lia|]. split.
  - intros i a. rewrite H1, H2. done.
  - intros i. rewrite H1. split; [intros []; done|lia].
Qed.

Lemma purge_registry_cleared env st k cid :
  In cid (currency_identifiers env) -> ceremony_cleared (purge_registry env st k) (cid, k).
Proof.
  unfold purge_registry. generalize st.
  induction (currency_identifiers env) as [|c cs IH]; intros st0 Hin; simpl in *; [done|].
  destruct Hin as [<-|Hin]; [|by apply IH].
  apply purge_fold_keeps_cleared. apply purge_cid_clears.
Qed.

Lemma participants_consistent_purge env st k cc :
  participants_consistent st cc -> participants_consistent (purge_registry env st k) cc.
Proof.
  intros Hc. destruct cc as [cid k'].
  destruct (decide (k' = k)) as [->|Hk];
    [destruct (in_dec Nat.eq_dec cid (currency_identifiers env)) as [Hin|Hn]|].
  - apply participants_consistent_cleared. apply purge_registry_cleared. done.
  - destruct (purge_registry_agree env st k (cid, k)) as (A1 & A2 & A3 & _);
      [intros c Hin Heq; injection Heq as ->; done|].
    eapply participants_consistent_ext; [| | |exact Hc]; symmetry; auto.
  - destruct (purge_registry_agree env st k (cid, k')) as (A1 & A2 & A3 & _);
      [intros c Hin Heq; injection Heq as -> ->; done|].
    eapply participants_consistent_ext; [| | |exact Hc]; symmetry; auto.
Qed.

Lemma participants_consistent_same st1 st2 cc :
  participant_registry st1 = participant_registry st2 ->
  participant_index st1 = participant_index st2 ->
  participant_count st1 = participant_count st2 ->
  participants_consistent st1 cc -> participants_consistent st2 cc.
Proof. intros H1 H2 H3. unfold participants_consistent, get_participant_count. rewrite H1, H2, H3. done. Qed.

(** The participant registry stays consistent (registry and reverse index
    inverse to each other, indices exactly [1..count]) under every
    sequence of signed calls and every phase change. *)
Theorem participants_consistent_preserved verify geo hav moment li (env : Env) (st : State) :
  (forall cc, participants_consistent st cc) ->
  (forall calls cc, participants_consistent (execute verify geo hav moment env st calls).1 cc) /\
  (forall phase st', on_ceremony_phase_change li env st phase = Some st' ->
     forall cc, participants_consistent st' cc).
Proof.
  intros Hst. split.
  - intros calls.
    apply (execute_preserves verify geo hav moment env (fun st => forall cc, participants_consistent st cc));
      [|done].
    intros st0 c st' H0 Hd cc. destruct c as [s cid r|s cid proof|s atts]; simpl in Hd.
    + apply grant_reputation_fields in Hd as [Hf _]. unfold non_reward_fields in Hf.
      injection Hf as H1 H2 H3. eapply participants_consistent_same; [| | |apply H0]; done.
    + eapply participants_consistent_register; [apply H0|exact Hd].
    + apply register_attestations_participants in Hd as (H1 & H2 & H3 & _).
      eapply participants_consistent_same; [| | |apply H0]; done.
  - intros phase st' Hp cc. destruct phase; simpl in Hp.
    + injection Hp as <-. apply participants_consistent_purge.
      pose proof (issue_rewards_non_reward li env st) as Hf. unfold non_reward_fields in Hf.
      injection Hf as H1 H2 H3. eapply participants_consistent_same; [| | |apply Hst]; done.
    + apply assign_meetups_loop_non_meetup in Hp. unfold non_meetup_fields in Hp.
      injection Hp as H1 H2 H3. eapply participants_consistent_same; [| | |apply Hst]; done.
    + injection Hp as <-. apply Hst.
Qed.

(** Once an account has registered for the current ceremony of a
    community, every later registration of it for that community in the
    same phase fails, with or without a proof, whatever signed calls
    come in between. *)
Theorem register_participant_twice_fails verify geo hav moment (env : Env) (st st' : State)
    (sender : AccountId) (cid : CurrencyIdentifier) (proof proof' : option ProofOfAttendance)
    (calls : list Call) :
  register_participant verify env st sender cid proof = Ok st' ->
  exists e, register_participant verify env (execute verify geo hav moment env st' calls).1
              sender cid proof' = Err e.
Proof.
  intros Hok.
  apply register_participant_ok_shape in Hok as (_ & rep & Hst').
  assert (Hreg : is_Some (participant_index (execute verify geo hav moment env st' calls).1
                            !! ((cid, current_ceremony_index env), sender))).
  { apply (execute_preserves verify geo hav moment env
             (fun s => is_Some (participant_index s !! ((cid, current_ceremony_index env), sender)))).
    - intros s c s' Hs Hd. destruct c as [x y r|x y pr|x atts]; simpl in Hd.
      + apply grant_reputation_fields in Hd as [Hf _]. unfold non_reward_fields in Hf.
        injection Hf as H1 H2 H3. rewrite H2. exact Hs.
      + apply register_participant_ok_shape in Hd as (_ & rep' & ->). simpl.
        destruct (decide (((y, current_ceremony_index env), x) =
                          ((cid, current_ceremony_index env), sender))) as [<-|Hne].
        * rewrite lookup_insert_eq. done.
        * rewrite lookup_insert_ne by done. exact Hs.
      + apply register_attestations_participants in Hd as (_ & H2 & _). rewrite H2. exact Hs.
    - rewrite Hst'. simpl. rewrite lookup_insert_eq. done. }
  unfold register_participant.
  destruct (decide (current_phase env <> REGISTERING)); [eauto|].
  destruct (negb (contains (currency_identifiers env) cid)); [eauto|].
  rewrite bool_decide_eq_true_2; [eauto|]. exact Hreg.
Qed.

(** ** Who gets placed in a meetup *)

Section Placement.

Local Arguments Nat.div : simpl never.

Lemma NoDup_map_in {A B} (f : A -> B) (l : list A) :
  (forall x y, In x l -> In y l -> f x = f y -> x = y) -> List.NoDup l -> List.NoDup (map f l).
Proof.
  induction l as [|x l IH]; intros Hinj Hnd; simpl; [constructor|].
  inversion Hnd as [|? ? Hx Hl]; subst. constructor.
  - intros Hin. apply in_map_iff in Hin as (y & Hy & Hyin).
    assert (y = x) by (apply Hinj; simpl; auto). subst. contradiction.
  - apply IH; [intros; apply Hinj; simpl; auto|done].
Qed.

Lemma submseteq_NoDup_l {A} (l k : list A) : l ⊆+ k -> NoDup k -> NoDup l.
Proof.
  intros Hs Hk. apply submseteq_Permutation in Hs as (r & Hr).
  rewrite Hr in Hk. apply NoDup_app in Hk. tauto.
Qed.

Lemma concat_alter_push {A} (ms : list (list A)) i p :
  (i < length ms)%nat -> concat (alter (fun m => m ++ [p]) i ms) ≡ₚ concat ms ++ [p].
Proof.
  revert i. induction ms as [|m ms IH]; intros i Hi; cbn [length] in Hi; [lia|].
  destruct i as [|i].
  - replace (alter (fun m0 => m0 ++ [p]) 0%nat (m :: ms)) with ((m ++ [p]) :: ms) by reflexivity.
    cbn [concat]. rewrite <- !app_assoc. apply Permutation_app_head. apply Permutation_app_comm.
  - replace (alter (fun m0 => m0 ++ [p]) (S i) (m :: ms))
      with (m :: alter (fun m0 => m0 ++ [p]) i ms) by reflexivity.
    cbn [concat]. rewrite IH by lia. rewrite app_assoc. done.
Qed.

Lemma vec_push_at_perm {A} (ms ms' : list (list A)) i p :
  vec_push_at ms i p = Some ms' -> concat ms' ≡ₚ concat ms ++ [p].
Proof.
  unfold vec_push_at. destruct (Nat.ltb_spec i (length ms)) as [Hi|Hi]; [|done].
  intros H. injection H as <-. apply concat_alter_push. done.
Qed.

Lemma assign_reputables_perm k i reps ms rs ms' rs' :
  assign_reputables k i reps ms rs = Some (ms', rs') -> concat ms' ≡ₚ concat ms ++ reps.
Proof.
  revert i ms rs. induction reps as [|p reps IH]; intros i ms rs H; simpl in H.
  - injection H as <- <-. rewrite app_nil_r. done.
  - destruct (vec_push_at ms (i mod k) p) as [ms1|] eqn:Hp; [|done]. simpl in H.
    destruct (vec_incr_at rs (i mod k)) as [rs1|]; [|done]. simpl in H.
    rewrite (IH _ _ _ H), (vec_push_at_perm _ _ _ _ Hp), <- app_assoc. done.
Qed.

Lemma assign_newbies_sub k i nbs ms rs ms' :
  assign_newbies k i nbs ms rs = Some ms' -> concat ms' ⊆+ concat ms ++ nbs.
Proof.
  revert i ms. induction nbs as [|p nbs IH]; intros i ms H; simpl in H.
  - injection H as <-. rewrite app_nil_r. done.
  - destruct (ms !! (i mod k)%nat) as [m|]; [|done]. simpl in H.
    destruct (rs !! (i mod k)%nat) as [r|]; [|done]. simpl in H.
    destruct (length m <? r * 4 / 3)%nat.
    + destruct (vec_push_at ms (i mod k) p) as [ms1|] eqn:Hp; simpl in H; [|done].
      rewrite (IH _ _ H), (vec_push_at_perm _ _ _ _ Hp), <- app_assoc. done.
    + rewrite (IH _ _ H). apply submseteq_skips_l. apply submseteq_cons. done.
Qed.

Lemma concat_delete_sub {A} (ms : list (list A)) i : concat (delete i ms) ⊆+ concat ms.
Proof.
  revert i. induction ms as [|m ms IH]; intros i; simpl; [done|].
  destruct i as [|i]; simpl.
  - apply submseteq_inserts_l. done.
  - change (concat (m :: delete i ms)) with (m ++ concat (delete i ms)).
    apply submseteq_skips_l. apply IH.
Qed.

Lemma remove_all_sub {A} (ms ms' : list (list A)) ts :
  remove_all ms ts = Some ms' -> concat ms' ⊆+ concat ms.
Proof.
  revert ms. induction ts as [|t ts IH]; intros ms H; simpl in H; [injection H as <-; done|].
  unfold vec_remove in H. destruct (t <? length ms)%nat; [|done]. simpl in H.
  rewrite (IH _ H). apply concat_delete_sub.
Qed.

Lemma concat_repeat_nil {A} k : concat (repeat (@nil A) k) = [].
Proof. induction k; simpl; auto. Qed.

Lemma assign_meetups_cid_sub reps newbies k ms :
  assign_meetups_cid reps newbies = Some (k, ms) -> concat ms ⊆+ reps ++ newbies.
Proof.
  unfold assign_meetups_cid. intros H.
  destruct (assign_reputables _ 0 reps _ _) as [[ms1 rs1]|] eqn:Hr; [|done]. simpl in H.
  destruct (assign_newbies _ 0 newbies ms1 rs1) as [ms2|] eqn:Hn; [|done]. simpl in H.
  destruct (remove_all ms2 _) as [ms3|] eqn:Hm; [|done]. simpl in H. injection H as <- <-.
  rewrite (remove_all_sub _ _ _ Hm), (assign_newbies_sub _ _ _ _ _ _ Hn).
  rewrite (assign_reputables_perm _ _ _ _ _ _ _ Hr), concat_repeat_nil. done.
Qed.

End Placement.

(** ** Splitting the registered participants *)

Lemma split_fold env st cid cindex (l : list Z) r0 n0 :
  fold_left (fun '(reputables, newbies) p =>
    let participant := get_participant_registry st (cid, cindex) p in
    if bool_decide (get_participant_reputation st (cid, cindex) participant = UnverifiedReputable)
       || contains (bootstrappers env cid) participant
    then (reputables ++ [participant], newbies)
    else (reputables, newbies ++ [participant])) l (r0, n0) =
  (r0 ++ List.filter (is_reputable env st (cid, cindex))
            (map (get_participant_registry st (cid, cindex)) l),
   n0 ++ List.filter (fun a => negb (is_reputable env st (cid, cindex) a))
            (map (get_participant_registry st (cid, cindex)) l)).
Proof.
  revert r0 n0. induction l as [|p l IH]; intros r0 n0; simpl.
  - rewrite !app_nil_r. done.
  - destruct (is_reputable env st (cid, cindex) (get_participant_registry st (cid, cindex) p)) eqn:E;
      pose proof E as E'; unfold is_reputable in E'; simpl in E'; rewrite ?E, ?E'; simpl;
      rewrite IH, <- !app_assoc; done.
Qed.

Lemma split_participants_filter env st cid cindex :
  let L := map (get_participant_registry st (cid, cindex))
             (range_incl (get_participant_count st (cid, cindex))) in
  split_participants env st cid cindex =
  (List.filter (is_reputable env st (cid, cindex)) L,
   List.filter (fun a => negb (is_reputable env st (cid, cindex) a)) L).
Proof. intros L. unfold split_participants. apply split_fold. Qed.

Lemma range_incl_In (N i : Z) : In i (range_incl N) <-> 1 <= i <= N.
Proof.
  unfold range_incl. rewrite in_map_iff. split.
  - intros (x & <- & Hx). apply in_seq in Hx. lia.
  - intros Hi. exists (Z.to_nat i). split; [lia|]. apply in_seq. lia.
Qed.

Lemma range_incl_NoDup (N : Z) : List.NoDup (range_incl N).
Proof.
  unfold range_incl. apply NoDup_map_in; [intros x y _ _; lia|]. apply seq_NoDup.
Qed.

(** With a consistent participant registry, the hook's split of the
    registered participants lists every registered account exactly once:
    as a reputable when its reputation is [UnverifiedReputable] or it is a
    bootstrapper of the community, as a newbie otherwise. *)
Theorem split_participants_registered (env : Env) (st : State) (cid : CurrencyIdentifier)
    (cindex : CeremonyIndexType) (reps newbies : list AccountId) :
  participants_consistent st (cid, cindex) ->
  split_participants env st cid cindex = (reps, newbies) ->
  NoDup (reps ++ newbies) /\
  (forall a, In a (reps ++ newbies) <-> is_Some (participant_index st !! ((cid, cindex), a))) /\
  (forall a, In a reps ->
     get_participant_reputation st (cid, cindex) a = UnverifiedReputable \/
     In a (bootstrappers env cid)) /\
  (forall a, In a newbies ->
     get_participant_reputation st (cid, cindex) a <> UnverifiedReputable /\
     ~ In a (bootstrappers env cid)).
Proof.
  intros (Hn & Hinv & Hrange) Hs.
  rewrite split_participants_filter in Hs. injection Hs as <- <-.
  set (g := get_participant_registry st (cid, cindex)).
  set (N := get_participant_count st (cid, cindex)) in *.
  set (P := is_reputable env st (cid, cindex)).
  assert (Hg : forall i, 1 <= i <= N ->
            participant_registry st !! ((cid, cindex), i) = Some (g i)).
  { intros i Hi. apply Hrange in Hi as [a Ha].
    subst g. unfold get_participant_registry. rewrite Ha. done. }
  assert (HL : List.NoDup (map g (range_incl N))).
  { apply NoDup_map_in; [|apply range_incl_NoDup].
    intros x y Hx Hy Hxy. apply range_incl_In in Hx, Hy.
    apply Hg in Hx, Hy. rewrite Hxy in Hx. apply Hinv in Hx, Hy. congruence. }
  assert (HinL : forall a, In a (map g (range_incl N)) <->
                 is_Some (participant_index st !! ((cid, cindex), a))).
  { intros a. rewrite in_map_iff. split.
    - intros (i & <- & Hi). apply range_incl_In, Hg, Hinv in Hi. eauto.
    - intros [i Hi]. apply Hinv in Hi. exists i.
      assert (Hr : 1 <= i <= N) by (apply Hrange; eauto).
      split; [|apply range_incl_In; done].
      apply Hg in Hr. congruence. }
  split; [|split; [|split]].
  - apply NoDup_ListNoDup. apply List.NoDup_app; try apply List.NoDup_filter; try done.
    intros a Ha Hb. apply filter_In in Ha as [_ Ha], Hb as [_ Hb].
    rewrite Ha in Hb. done.
  - intros a. rewrite in_app_iff, !filter_In, <- HinL.
    destruct (P a); simpl; intuition.
  - intros a Ha. apply filter_In in Ha as [_ Ha]. subst P. unfold is_reputable in Ha.
    apply orb_true_iff in Ha as [Ha|Ha]; [left; apply bool_decide_eq_true in Ha; done|].
    right. apply contains_In. done.
  - intros a Ha. apply filter_In in Ha as [_ Ha]. subst P. unfold is_reputable in Ha.
    apply negb_true_iff, orb_false_iff in Ha as [Ha Hb].
    apply bool_decide_eq_false in Ha. split; [done|].
    intros Hc. apply contains_In in Hc. simpl in Hb. congruence.
Qed.

(** ** The reverse meetup index after the assignment *)

Lemma commit_from_index_unchanged cc i ms st a :
  a ∉ concat ms ->
  meetup_index (commit_meetups_from cc i ms st) !! (cc, a) = meetup_index st !! (cc, a).
Proof.
  revert i st. induction ms as [|m ms IH]; intros i st Ha; simpl; [done|].
  cbn [concat] in Ha. rewrite elem_of_app in Ha.
  rewrite IH by tauto. simpl. rewrite fold_insert_index_lookup.
  case_decide as Hc; [destruct Hc; tauto|done].
Qed.

Lemma commit_from_index_at cc i ms st t m a :
  NoDup (concat ms) -> ms !! t = Some m -> a ∈ m ->
  meetup_index (commit_meetups_from cc i ms st) !! (cc, a) = Some (Z.of_nat (i + t + 1)).
Proof.
  revert i t st. induction ms as [|m0 ms IH]; intros i t st Hnd Ht Ha; [done|].
  cbn [concat] in Hnd. apply NoDup_app in Hnd as (_ & Hdisj & Hnd). simpl.
  destruct t as [|t]; simpl in Ht.
  - injection Ht as ->. rewrite commit_from_index_unchanged by (apply Hdisj; done).
    simpl. rewrite fold_insert_index_lookup. rewrite decide_True by tauto.
    rewrite Nat.add_0_r. done.
  - rewrite (IH (S i) t) by done. f_equal. lia.
Qed.

Lemma commit_meetups_index_at cc k ms st t m a :
  NoDup (concat ms) -> ms !! t = Some m -> a ∈ m ->
  meetup_index (commit_meetups cc k ms st) !! (cc, a) = Some (Z.of_nat (t + 1)).
Proof.
  intros Hnd Ht Ha. unfold commit_meetups. destruct ms as [|m0 ms]; [done|].
  apply (commit_from_index_at cc 0 (m0 :: ms) _ t m a); done.
Qed.

(** For distinct communities with no meetups yet for the current ceremony
    and a consistent participant registry, after the assignment hook every
    member of a stored meetup is a registered participant whose meetup
    index points to that meetup; so no account is a member of two stored
    meetups. *)
Theorem assign_meetups_members_indexed (env : Env) (st : State) :
  NoDup (currency_identifiers env) ->
  (forall cid, In cid (currency_identifiers env) ->
     no_meetups_at st (cid, current_ceremony_index env) /\
     participants_consistent st (cid, current_ceremony_index env)) ->
  exists st', assign_meetups env st = Some st' /\
    forall cid, In cid (currency_identifiers env) ->
      let cc := (cid, current_ceremony_index env) in
      (forall j m a, meetup_registry st' !! (cc, j) = Some m -> In a m ->
         meetup_index st' !! (cc, a) = Some j /\ is_Some (participant_index st' !! (cc, a))) /\
      (forall j1 j2 m1 m2 a, meetup_registry st' !! (cc, j1) = Some m1 ->
         meetup_registry st' !! (cc, j2) = Some m2 -> In a m1 -> In a m2 -> j1 = j2).
Proof.
  intros Hnd Hst. destruct (assign_meetups_outcome env st Hnd) as (st' & Ha & Hout).
  exists st'. split; [done|].
  assert (Hpi : participant_index st' = participant_index st).
  { apply assign_meetups_loop_non_meetup in Ha. unfold non_meetup_fields in Ha.
    injection Ha as _ H2. done. }
  intros cid Hin cc. subst cc.
  destruct (Hout cid Hin) as (reps & newbies & k & ms & Hs & Hams & (A1 & A2 & _)).
  destruct (Hst cid Hin) as [Hempty Hcons].
  destruct (split_participants_registered env st cid _ reps newbies Hcons Hs) as (Hnd' & Hreg & _).
  pose proof (assign_meetups_cid_sub _ _ _ _ Hams) as Hsub.
  assert (HndC : NoDup (concat ms)) by (eapply submseteq_NoDup_l; eauto).
  destruct (commit_meetups_result _ k ms st Hempty) as (R1 & _).
  assert (Hfirst : forall j m a, meetup_registry st' !! ((cid, current_ceremony_index env), j) = Some m ->
            In a m -> meetup_index st' !! ((cid, current_ceremony_index env), a) = Some j /\
            is_Some (participant_index st' !! ((cid, current_ceremony_index env), a))).
  { intros j m a Hj Ham. rewrite A1 in Hj. destruct (R1 _ _ Hj) as (t & Ht & ->).
    split.
    - rewrite A2. apply (commit_meetups_index_at _ k ms st t m a); [done|done|].
      apply list_elem_of_In. done.
    - rewrite Hpi. apply Hreg. apply list_elem_of_In.
      eapply elem_of_submseteq; [|exact Hsub]. apply list_elem_of_In.
      apply in_concat. exists m. split; [|done].
      apply list_elem_of_In. eapply list_elem_of_lookup_2. exact Ht. }
  split; [exact Hfirst|].
  intros j1 j2 m1 m2 a H1 H2 Ha1 Ha2.
  destruct (Hfirst _ _ _ H1 Ha1) as [I1 _]. destruct (Hfirst _ _ _ H2 Ha2) as [I2 _].
  congruence.
Qed.

(** ** The assignment hook's footprint *)

(** The assignment hook never panics, for any state and any list of
    communities (duplicates included); it writes only the meetup
    registry, reverse index and count, and only for the current ceremony
    of the listed communities. *)
Theorem assign_meetups_total_and_local (env : Env) (st : State) :
  exists st', assign_meetups env st = Some st' /\
    non_meetup_fields st' = non_meetup_fields st /\
    (forall cc, ~ (In cc.1 (currency_identifiers env) /\ cc.2 = current_ceremony_index env) ->
       meetups_agree cc st' st).
Proof.
  unfold assign_meetups. generalize st.
  induction (currency_identifiers env) as [|cid cids IH]; intros st0.
  - exists st0. split; [done|]. split; [done|]. intros cc _. apply meetups_agree_refl.
  - pose proof (assign_meetups_for_eq env st0 cid) as He. cbv zeta in He.
    destruct (split_participants env st0 cid (current_ceremony_index env)) as [reps newbies].
    destruct He as (k & ms & _ & Hfor).
    destruct (IH (commit_meetups (cid, current_ceremony_index env) k ms st0))
      as (st' & Hl & Hf & Ha).
    exists st'. simpl. rewrite Hfor. simpl. split; [done|].
    split; [rewrite Hf; apply commit_meetups_non_meetup|].
    intros [c i] Hn. simpl in Hn.
    eapply meetups_agree_trans; [apply Ha; simpl; intros [H1 H2]; apply Hn; split; [right|]; done|].
    apply commit_frame. intros Heq. injection Heq as -> ->. apply Hn. split; [left|]; done.
Qed.

(** ** The attestation registry *)

Lemma register_attestations_ok_shape verify geo hav moment env st sender atts st' :
  register_attestations verify geo hav moment env st sender atts = Ok st' ->
  exists a0 rest mlocation mtime,
    let cid := claim_currency_identifier (claim a0) in
    let cindex := current_ceremony_index env in
    let cc := (cid, cindex) in
    let mi := get_meetup_index st cc sender in
    let ps := List.filter (fun x => negb (x =? sender)%nat) (get_meetup_registry st cc mi) in
    atts = a0 :: rest /\
    current_phase env = ATTESTING /\
    In cid (currency_identifiers env) /\
    In sender (get_meetup_registry st cc mi) /\
    get_meetup_location env cid mi = Some mlocation /\
    get_meetup_time moment env cid mi = Some mtime /\
    let '(verified, vote) := filter_attestations verify geo hav st cid cindex mi ps mlocation mtime atts in
    verified <> [] /\
    exists idx counts,
      ((attestation_index st !! (cc, sender) = Some idx /\ counts = attestation_count st) \/
       (attestation_index st !! (cc, sender) = None /\
        get_attestation_count st cc + 1 < u64_modulus /\
        idx = u64_add (get_attestation_count st cc) 1 /\
        counts = <[cc := get_attestation_count st cc + 1]> (attestation_count st))) /\
      st' = set_attestations st
              (<[(cc, idx) := verified]> (attestation_registry st))
              (<[(cc, sender) := idx]> (attestation_index st))
              counts
              (<[(cc, sender) := vote]> (meetup_participant_count_vote st)).
Proof.
  unfold register_attestations. intros H.
  destruct (decide (current_phase env <> ATTESTING)) as [|Hph]; [done|].
  apply dec_stable in Hph.
  destruct atts as [|a0 rest]; [done|].
  destruct (contains (currency_identifiers env) _) eqn:Hc; cbn [negb] in H; [|done].
  destruct (contains (get_meetup_registry _ _ _) sender) eqn:Hm; cbn [negb] in H; [|done].
  destruct (Nat.leb (length (a0 :: rest)) _); cbn [negb] in H; [|done].
  destruct (get_meetup_location _ _ _) as [loc|] eqn:Hl; [|done].
  destruct (get_meetup_time _ _ _ _) as [t|] eqn:Ht; [|done].
  exists a0, rest, loc, t. cbv zeta.
  apply contains_In in Hc. apply contains_In in Hm.
  do 6 (split; [done|]).
  destruct (filter_attestations _ _ _ _ _ _ _ _ _ _ _) as [verified vote].
  destruct verified as [|v vs]; [done|]. split; [done|].
  destruct (attestation_index st !! _) as [idx|] eqn:Hi.
  - injection H as <-. eexists _, _. split; [left; split; reflexivity|]. reflexivity.
  - unfold u64_checked_add in H.
    destruct (Z.ltb_spec (get_attestation_count st (claim_currency_identifier (claim a0), current_ceremony_index env) + 1) u64_modulus); [|done].
    injection H as <-. eexists _, _. split; [right; split; [done|]; split; [lia|]; split; reflexivity|]. reflexivity.
Qed.

Lemma filter_attestations_fold verify geo hav st cid cindex mi ps loc t atts v n :
  let P := attestation_accepted verify geo hav st cid cindex mi ps loc t in
  fold_left (fun '(verified, claim_n_participants) attestation =>
    if P attestation
    then (public attestation :: verified, number_of_participants_confirmed (claim attestation))
    else (verified, claim_n_participants)) atts (v, n) =
  (rev (map public (List.filter P atts)) ++ v,
   match last (List.filter P atts) with
   | None => n
   | Some a => number_of_participants_confirmed (claim a)
   end).
Proof.
  intros P. revert v n. induction atts as [|a atts IH]; intros v n; simpl; [done|].
  destruct (P a) eqn:Ha.
  - rewrite IH. simpl. rewrite <- app_assoc. simpl. f_equal.
    rewrite last_cons. destruct (last (List.filter P atts)); done.
  - apply IH.
Qed.

Lemma filter_attestations_eq verify geo hav st cid cindex mi ps loc t atts :
  let P := attestation_accepted verify geo hav st cid cindex mi ps loc t in
  filter_attestations verify geo hav st cid cindex mi ps loc t atts =
  (rev (map public (List.filter P atts)),
   match last (List.filter P atts) with
   | None => 0
   | Some a => number_of_participants_confirmed (claim a)
   end).
Proof.
  intros P. unfold filter_attestations.
  rewrite filter_attestations_fold, app_nil_r. done.
Qed.

Lemma attestation_accepted_member verify geo hav st cid cindex mi ps loc t a :
  attestation_accepted verify geo hav st cid cindex mi ps loc t a = true -> In (public a) ps.
Proof.
  unfold attestation_accepted. destruct (contains ps (public a)) eqn:Hc; simpl; [|done].
  intros _. apply contains_In. done.
Qed.

Lemma attestations_consistent_same st1 st2 cc :
  attestation_index st1 = attestation_index st2 ->
  attestation_count st1 = attestation_count st2 ->
  attestations_consistent st1 cc -> attestations_consistent st2 cc.
Proof. intros H1 H2. unfold attestations_consistent, get_attestation_count. rewrite H1, H2. done. Qed.

Lemma attestations_consistent_ext st1 st2 cc :
  (forall a, attestation_index st1 !! (cc, a) = attestation_index st2 !! (cc, a)) ->
  attestation_count st1 !! cc = attestation_count st2 !! cc ->
  attestations_consistent st1 cc -> attestations_consistent st2 cc.
Proof.
  intros H1 H2. unfold attestations_consistent, get_attestation_count.
  rewrite H2. setoid_rewrite H1. done.
Qed.

Lemma attestations_consistent_register verify geo hav moment env st sender atts st' :
  (forall cc, attestations_consistent st cc) ->
  register_attestations verify geo hav moment env st sender atts = Ok st' ->
  forall cc, attestations_consistent st' cc.
Proof.
  intros Hst Hok cc0.
  apply register_attestations_ok_shape in Hok as (a0 & rest & loc & t & Hsh).
  cbv zeta in Hsh. destruct Hsh as (_ & _ & _ & _ & _ & _ & Hsh).
  destruct (filter_attestations _ _ _ _ _ _ _ _ _ _ _) as [verified vote].
  destruct Hsh as (_ & idx & counts & Hcase & ->).
  set (cc := (claim_currency_identifier (claim a0), current_ceremony_index env)) in *.
  destruct (decide (cc0 = cc)) as [->|Hne].
  2:{ apply (attestations_consistent_ext st); [| |apply Hst].
      - intros a. simpl. rewrite lookup_insert_ne by congruence. done.
      - simpl. destruct Hcase as [(_ & ->)|(_ & _ & _ & ->)]; [done|].
        rewrite lookup_insert_ne by congruence. done. }
  destruct (Hst cc) as (Hcnt & Hrange & Hinj).
  destruct Hcase as [(Hi & ->)|(Hi & Hlt & -> & ->)].
  - unfold attestations_consistent, get_attestation_count in *; simpl.
    split; [done|]. split.
    + intros a i. destruct (decide (a = sender)) as [->|Ha].
      * rewrite lookup_insert_eq. intros [= <-]. eapply Hrange. exact Hi.
      * rewrite lookup_insert_ne by congruence. apply Hrange.
    + intros a b i.
      destruct (decide (a = sender)) as [->|Ha]; destruct (decide (b = sender)) as [->|Hb]; try done;
        repeat first [rewrite lookup_insert_eq | rewrite lookup_insert_ne by congruence];
        intros H1 H2; simplify_eq; eapply Hinj; eauto.
  - assert (Hu : u64_add (get_attestation_count st cc) 1 = get_attestation_count st cc + 1).
    { unfold u64_add. apply Z.mod_small. lia. }
    rewrite Hu.
    unfold attestations_consistent, get_attestation_count in *; simpl.
    rewrite lookup_insert_eq. simpl. split; [lia|]. split.
    + intros a i. destruct (decide (a = sender)) as [->|Ha].
      * rewrite lookup_insert_eq. intros [= <-]. lia.
      * rewrite lookup_insert_ne by congruence. intros Hai. specialize (Hrange _ _ Hai). lia.
    + intros a b i.
      destruct (decide (a = sender)) as [->|Ha]; destruct (decide (b = sender)) as [->|Hb]; try done;
        repeat first [rewrite lookup_insert_eq | rewrite lookup_insert_ne by congruence].
      * intros [= <-] H2. specialize (Hrange _ _ H2). lia.
      * intros H1 [= <-]. specialize (Hrange _ _ H1). lia.
      * apply Hinj.
Qed.

Lemma attestations_consistent_cleared st cc :
  ceremony_cleared st cc -> attestations_consistent st cc.
Proof.
  intros (_ & _ & _ & _ & _ & _ & _ & H2 & H3 & _).
  unfold attestations_consistent, get_attestation_count. rewrite H3. simpl.
  split; [unfold u64_modulus; lia|]. split; intros *; rewrite H2; done.
Qed.

Lemma attestations_consistent_purge env st k cc :
  attestations_consistent st cc -> attestations_consistent (purge_registry env st k) cc.
Proof.
  intros Hc. destruct cc as [cid k'].
  destruct (decide (k' = k)) as [->|Hk];
    [destruct (in_dec Nat.eq_dec cid (currency_identifiers env)) as [Hin|Hn]|].
  - apply attestations_consistent_cleared. apply purge_registry_cleared. done.
  - destruct (purge_registry_agree env st k (cid, k)) as (_ & _ & _ & _ & _ & A2 & A3 & _);
      [intros c Hin Heq; injection Heq as ->; done|].
    eapply attestations_consistent_ext; [| |exact Hc]; symmetry; auto.
  - destruct (purge_registry_agree env st k (cid, k')) as (_ & _ & _ & _ & _ & A2 & A3 & _);
      [intros c Hin Heq; injection Heq as -> ->; done|].
    eapply attestations_consistent_ext; [| |exact Hc]; symmetry; auto.
Qed.

(** The attestation registry stays consistent (count a [u64], every
    attestation index in [1..count], no index shared by two accounts)
    under every sequence of signed calls and every phase change. *)
Theorem attestations_consistent_preserved verify geo hav moment li (env : Env) (st : State) :
  (forall cc, attestations_consistent st cc) ->
  (forall calls cc, attestations_consistent (execute verify geo hav moment env st calls).1 cc) /\
  (forall phase st', on_ceremony_phase_change li env st phase = Some st' ->
     forall cc, attestations_consistent st' cc).
Proof.
  intros Hst. split.
  - intros calls.
    apply (execute_preserves verify geo hav moment env (fun st => forall cc, attestations_consistent st cc));
      [|done].
    intros st0 c st' H0 Hd. destruct c as [s cid r|s cid proof|s atts]; simpl in Hd.
    + apply grant_reputation_fields in Hd as [Hf _]. unfold non_reward_fields in Hf.
      injection Hf as H1 H2 H3 H4 H5 H6 H7 H8 H9. intros cc.
      eapply attestations_consistent_same; [| |apply H0]; done.
    + apply register_participant_ok_shape in Hd as (_ & rep & ->). intros cc.
      eapply attestations_consistent_same; [| |apply H0]; done.
    + eapply attestations_consistent_register; eauto.
  - intros phase st' Hp cc. destruct phase; simpl in Hp.
    + injection Hp as <-. apply attestations_consistent_purge.
      pose proof (issue_rewards_non_reward li env st) as Hf. unfold non_reward_fields in Hf.
      injection Hf as H1 H2 H3 H4 H5 H6 H7 H8 H9.
      eapply attestations_consistent_same; [| |apply Hst]; done.
    + apply assign_meetups_loop_non_meetup in Hp. unfold non_meetup_fields in Hp.
      injection Hp as H1 H2 H3 H4 H5 H6 H7.
      eapply attestations_consistent_same; [| |apply Hst]; done.
    + injection Hp as <-. apply Hst.
Qed.

(** A successful [register_attestations] stores, as the sender's bundle
    for the ceremony named by its first claim, the signers of the
    accepted attestations in reverse order of submission (the loop
    inserts at position 0), and as the sender's headcount vote the
    number claimed by the last accepted attestation; every stored
    witness is a member of the sender's meetup other than the sender. *)
Theorem register_attestations_stores_accepted verify geo hav moment (env : Env) (st st' : State)
    (sender : AccountId) (atts : list Attestation) :
  register_attestations verify geo hav moment env st sender atts = Ok st' ->
  exists a0 rest mlocation mtime,
    let cid := claim_currency_identifier (claim a0) in
    let cc := (cid, current_ceremony_index env) in
    let mi := get_meetup_index st cc sender in
    let ps := List.filter (fun x => negb (x =? sender)%nat) (get_meetup_registry st cc mi) in
    let accepted := List.filter
      (attestation_accepted verify geo hav st cid (current_ceremony_index env) mi ps mlocation mtime) atts in
    atts = a0 :: rest /\
    get_meetup_location env cid mi = Some mlocation /\
    get_meetup_time moment env cid mi = Some mtime /\
    accepted <> [] /\
    bundle_of st' cc sender = rev (map public accepted) /\
    (forall a, last accepted = Some a ->
       get_meetup_participant_count_vote st' cc sender = number_of_participants_confirmed (claim a)) /\
    (forall w, In w (bundle_of st' cc sender) ->
       w <> sender /\ In w (get_meetup_registry st cc mi)).
Proof.
  intros Hok.
  apply register_attestations_ok_shape in Hok as (a0 & rest & loc & t & Hsh).
  exists a0, rest, loc, t. cbv zeta in *.
  destruct Hsh as (-> & _ & _ & _ & Hl & Ht & Hsh).
  rewrite filter_attestations_eq in Hsh.
  set (P := attestation_accepted _ _ _ _ _ _ _ _ _ _) in *.
  destruct Hsh as (Hne & idx & counts & _ & ->).
  assert (Hb : bundle_of (set_attestations st
       (<[(claim_currency_identifier (claim a0), current_ceremony_index env, idx) :=
          rev (map public (List.filter P (a0 :: rest)))]> (attestation_registry st))
       (<[(claim_currency_identifier (claim a0), current_ceremony_index env, sender) := idx]>
          (attestation_index st)) counts
       (<[(claim_currency_identifier (claim a0), current_ceremony_index env, sender) :=
          match last (List.filter P (a0 :: rest)) with
          | Some a => number_of_participants_confirmed (claim a)
          | None => 0
          end]> (meetup_participant_count_vote st)))
       (claim_currency_identifier (claim a0), current_ceremony_index env) sender =
     rev (map public (List.filter P (a0 :: rest)))).
  { unfold bundle_of, get_attestation_registry, get_attestation_index. simpl.
    rewrite !lookup_insert_eq. done. }
  split; [done|]. split; [done|]. split; [done|].
  split; [intros Hnil; apply Hne; rewrite Hnil; done|].
  split; [exact Hb|]. split.
  - intros a Ha. unfold get_meetup_participant_count_vote, set_attestations.
    cbn [meetup_participant_count_vote]. rewrite lookup_insert_eq, Ha. done.
  - rewrite Hb. intros w Hw.
    apply in_rev, in_map_iff in Hw as (a & <- & Ha).
    apply filter_In in Ha as [_ Ha].
    apply attestation_accepted_member, filter_In in Ha as [Hin Hw].
    split; [|done]. intros Heq. rewrite Heq, Nat.eqb_refl in Hw. done.
Qed.

(** In a consistent attestation registry, a successful
    [register_attestations] leaves the bundle and the headcount vote of
    every other account unchanged, in every ceremony. *)
Theorem register_attestations_keeps_others verify geo hav moment (env : Env) (st st' : State)
    (sender : AccountId) (atts : list Attestation) :
  (forall cc, attestations_consistent st cc) ->
  register_attestations verify geo hav moment env st sender atts = Ok st' ->
  forall cc b, b <> sender ->
    bundle_of st' cc b = bundle_of st cc b /\
    get_meetup_participant_count_vote st' cc b = get_meetup_participant_count_vote st cc b.
Proof.
  intros Hst Hok cc0 b Hb.
  apply register_attestations_ok_shape in Hok as (a0 & rest & loc & t & Hsh).
  cbv zeta in Hsh. destruct Hsh as (_ & _ & _ & _ & _ & _ & Hsh).
  destruct (filter_attestations _ _ _ _ _ _ _ _ _ _ _) as [verified vote].
  destruct Hsh as (_ & idx & counts & Hcase & ->).
  set (cc := (claim_currency_identifier (claim a0), current_ceremony_index env)) in *.
  unfold bundle_of, get_attestation_registry, get_attestation_index,
    get_meetup_participant_count_vote; simpl.
  rewrite !(lookup_insert_ne _ (cc, sender) (cc0, b)) by congruence.
  split; [|done].
  destruct (decide (cc0 = cc)) as [->|Hne];
    [|rewrite lookup_insert_ne by congruence; done].
  rewrite lookup_insert_ne; [done|].
  destruct (Hst cc) as (Hcnt & Hrange & Hinj).
  intros [= Heq]. destruct (attestation_index st !! (cc, b)) as [ib|] eqn:Hib; simpl in Heq.
  - subst ib. destruct Hcase as [(Hi & _)|(_ & Hlt & -> & _)].
    + apply Hb. eapply Hinj; eauto.
    + specialize (Hrange _ _ Hib). unfold u64_add in Hrange.
      rewrite Z.mod_small in Hrange by lia. lia.
  - subst idx. destruct Hcase as [(Hi & _)|(_ & Hlt & Hz & _)].
    + specialize (Hrange _ _ Hi). lia.
    + unfold u64_add in Hz. rewrite Z.mod_small in Hz by lia. lia.
Qed.

(** In a consistent attestation registry, a successful
    [register_attestations] by an account that already holds an
    attestation index keeps that index and the count (the new bundle
    replaces the old one), while a first submission gets the index
    [count + 1] and increments the count, both in the ceremony of the
    community named by the first claim; no other ceremony's count
    changes. *)
Theorem register_attestations_count verify geo hav moment (env : Env) (st st' : State)
    (sender : AccountId) (a0 : Attestation) (rest : list Attestation) :
  (forall cc, attestations_consistent st cc) ->
  register_attestations verify geo hav moment env st sender (a0 :: rest) = Ok st' ->
  let cc := (claim_currency_identifier (claim a0), current_ceremony_index env) in
  (forall cc', cc' <> cc -> attestation_count st' !! cc' = attestation_count st !! cc') /\
  match attestation_index st !! (cc, sender) with
  | Some i => attestation_index st' !! (cc, sender) = Some i /\
              get_attestation_count st' cc = get_attestation_count st cc
  | None => attestation_index st' !! (cc, sender) = Some (get_attestation_count st cc + 1) /\
            get_attestation_count st' cc = get_attestation_count st cc + 1
  end.
Proof.
  intros Hst Hok. cbv zeta.
  apply register_attestations_ok_shape in Hok as (a0' & rest' & loc & t & Hsh).
  cbv zeta in Hsh. destruct Hsh as ([= <- <-] & _ & _ & _ & _ & _ & Hsh).
  destruct (filter_attestations _ _ _ _ _ _ _ _ _ _ _) as [verified vote].
  destruct Hsh as (_ & idx & counts & Hcase & ->).
  set (cc := (claim_currency_identifier (claim a0), current_ceremony_index env)) in *.
  destruct (Hst cc) as (Hcnt & _ & _).
  unfold get_attestation_count; simpl.
  destruct Hcase as [(Hi & ->)|(Hi & Hlt & -> & ->)]; rewrite Hi.
  - split; [done|]. rewrite lookup_insert_eq. done.
  - split; [intros cc' Hne; rewrite lookup_insert_ne by congruence; done|].
    rewrite !lookup_insert_eq. simpl. unfold u64_add, get_attestation_count in *.
    rewrite Z.mod_small by lia. done.
Qed.

(** An account with no meetup index for a ceremony, while no meetup is
    stored at index 0, cannot register attestations whose first claim
    names that community: its meetup index reads as 0 and the empty
    meetup does not contain it. *)
Theorem register_attestations_unassigned_fails verify geo hav moment (env : Env) (st : State)
    (sender : AccountId) (a0 : Attestation) (rest : list Attestation) :
  let cc := (claim_currency_identifier (claim a0), current_ceremony_index env) in
  meetup_index st !! (cc, sender) = None ->
  meetup_registry st !! (cc, 0) = None ->
  exists e, register_attestations verify geo hav moment env st sender (a0 :: rest) = Err e.
Proof.
  intros cc Hi Hr. unfold register_attestations.
  destruct (decide (current_phase env <> ATTESTING)); [eauto|].
  destruct (negb (contains (currency_identifiers env) _)); [eauto|].
  unfold get_meetup_index, get_meetup_registry. fold cc. rewrite Hi. simpl. rewrite Hr. simpl. eauto.
Qed.

(** ** Reward issuance and the purge *)

Lemma rewards_only_refl cids cindex r st : rewards_only cids cindex r st st.
Proof.
  split; [done|]. split; [exists []; rewrite app_nil_r; split; [done|intros ? ? ? []]|].
  intros key Hk. congruence.
Qed.

Lemma rewards_only_trans cids cindex r st1 st2 st3 :
  rewards_only cids cindex r st1 st2 -> rewards_only cids cindex r st2 st3 ->
  rewards_only cids cindex r st1 st3.
Proof.
  intros (F1 & (n1 & I1 & N1) & R1) (F2 & (n2 & I2 & N2) & R2).
  split; [congruence|]. split.
  - exists (n1 ++ n2). rewrite I2, I1, app_assoc. split; [done|].
    intros cid acc x Hin. apply in_app_or in Hin as [Hin|Hin]; eauto.
  - intros key Hk.
    destruct (decide (participant_reputation st3 !! key = participant_reputation st2 !! key))
      as [Heq|Hne]; [|apply R2; done].
    rewrite Heq in Hk |- *. apply R1. done.
Qed.

Lemma reward_participant_rewards_only li cids cid cindex v c st p :
  In cid cids ->
  rewards_only cids cindex (ceremony_reward st) st (reward_participant li cid cindex v c st p).
Proof.
  intros Hcid. unfold reward_participant.
  repeat case_match; try apply rewards_only_refl.
  split; [done|]. split.
  - exists [(cid, p, ceremony_reward st)]. split; [done|].
    intros cid' acc x [[= -> -> ->]|[]]. done.
  - intros key Hk. simpl in *.
    destruct (decide (key = ((cid, cindex), p))) as [->|Hne].
    + rewrite lookup_insert_eq. split; [done|]. eauto.
    + rewrite lookup_insert_ne in Hk by congruence. done.
Qed.

Lemma rewards_only_reward st st' cids cindex r :
  rewards_only cids cindex r st st' -> ceremony_reward st' = ceremony_reward st.
Proof. intros (Hf & _). unfold non_reward_fields in Hf. injection Hf. done. Qed.

Lemma reward_fold_rewards_only li cids cid cindex v c ps st :
  In cid cids ->
  rewards_only cids cindex (ceremony_reward st) st
    (fold_left (reward_participant li cid cindex v c) ps st).
Proof.
  intros Hcid. revert st. induction ps as [|p ps IH]; intros st; simpl; [apply rewards_only_refl|].
  pose proof (reward_participant_rewards_only li cids cid cindex v c st p Hcid) as H1.
  eapply rewards_only_trans; [exact H1|].
  rewrite <- (rewards_only_reward _ _ _ _ _ H1). apply IH.
Qed.

Lemma reward_meetups_rewards_only li cids cid cindex ms st :
  In cid cids ->
  rewards_only cids cindex (ceremony_reward st) st
    (fold_left (fun st m => reward_meetup li st cid cindex m) ms st).
Proof.
  intros Hcid. revert st. induction ms as [|m ms IH]; intros st; simpl; [apply rewards_only_refl|].
  assert (H1 : rewards_only cids cindex (ceremony_reward st) st (reward_meetup li st cid cindex m)).
  { unfold reward_meetup. destruct (ballot_meetup_n_votes _ _ _ _) as [[n c]|];
      [apply reward_fold_rewards_only; done|apply rewards_only_refl]. }
  eapply rewards_only_trans; [exact H1|].
  rewrite <- (rewards_only_reward _ _ _ _ _ H1). apply IH.
Qed.

(** [issue_rewards] writes nothing but reputations and issuances: it
    appends to the issuance record only payments of the configured
    ceremony reward in the registered communities, and changes a
    reputation only by setting it to [VerifiedUnlinked], for the
    previous ceremony ([cindex - 1] as a [u32]) of a registered
    community. *)
Theorem issue_rewards_writes_only_rewards li (env : Env) (st : State) :
  rewards_only (currency_identifiers env) (u32_sub (current_ceremony_index env) 1)
    (ceremony_reward st) st (issue_rewards li env st).
Proof.
  unfold issue_rewards. case_decide; [apply rewards_only_refl|].
  assert (Hall : forall l, (forall cid, In cid l -> In cid (currency_identifiers env)) ->
    forall st0,
    rewards_only (currency_identifiers env) (u32_sub (current_ceremony_index env) 1)
      (ceremony_reward st0) st0
      (fold_left (fun st cid =>
         fold_left (fun st m => reward_meetup li st cid (u32_sub (current_ceremony_index env) 1) m)
           (range_incl (get_meetup_count st (cid, u32_sub (current_ceremony_index env) 1))) st)
         l st0)).
  { intros l. induction l as [|cid l IH]; intros Hl st0; simpl; [apply rewards_only_refl|].
    pose proof (reward_meetups_rewards_only li (currency_identifiers env) cid
      (u32_sub (current_ceremony_index env) 1)
      (range_incl (get_meetup_count st0 (cid, u32_sub (current_ceremony_index env) 1))) st0
      (Hl cid (or_introl eq_refl))) as H1.
    eapply rewards_only_trans; [exact H1|].
    rewrite <- (rewards_only_reward _ _ _ _ _ H1). apply IH. intros c Hc. apply Hl. right. done. }
  apply Hall. done.
Qed.

(** Entering [REGISTERING] pays the rewards of the previous ceremony and
    then clears that ceremony of every registered community, keeping
    the reputations and issuances just written; the entries of every
    other ceremony, the reward amount and the tolerances stay as they
    were. *)
Theorem on_registering_rewards_then_purges li (env : Env) (st : State) :
  let k := u32_sub (current_ceremony_index env) 1 in
  exists st', on_ceremony_phase_change li env st REGISTERING = Some st' /\
    participant_reputation st' = participant_reputation (issue_rewards li env st) /\
    issued st' = issued (issue_rewards li env st) /\
    (forall cid, In cid (currency_identifiers env) -> ceremony_cleared st' (cid, k)) /\
    (forall cc, (forall cid, In cid (currency_identifiers env) -> cc <> (cid, k)) ->
       ceremony_agree cc st' st) /\
    ceremony_reward st' = ceremony_reward st /\
    location_tolerance st' = location_tolerance st /\
    time_tolerance st' = time_tolerance st.
Proof.
  cbv zeta. eexists. split; [reflexivity|].
  set (k := u32_sub (current_ceremony_index env) 1).
  destruct (purge_registry_fields env (issue_rewards li env st) k) as (R & _ & L & T & I).
  pose proof (issue_rewards_non_reward li env st) as Hf. unfold non_reward_fields in Hf.
  injection Hf as F1 F2 F3 F4 F5 F6 F7 F8 F9 F10 F11 F12 F13.
  destruct (purge_registry_fields env (issue_rewards li env st) k) as (_ & W & _ & _ & _).
  split; [done|]. split; [done|]. split; [intros cid Hin; apply purge_registry_cleared; done|].
  split; [|split; [congruence|split; congruence]].
  intros cc Hcc. eapply ceremony_agree_trans; [apply purge_registry_agree; exact Hcc|].
  unfold ceremony_agree, meetups_agree.
  rewrite F1, F2, F3, F4, F5, F6, F7, F8, F9, F10. repeat split; done.
Qed.

Lemma reward_participant_paid li cid cindex v c st p :
  exists new, issued (reward_participant li cid cindex v c st p) = issued st ++ new /\
    map fst new ⊆+ [(cid, p)].
Proof.
  unfold reward_participant.
  repeat case_match;
    first [ exists []; rewrite app_nil_r; split; [done|apply submseteq_nil_l]
          | exists [(cid, p, ceremony_reward st)]; split; done ].
Qed.

Lemma reward_fold_paid li cid cindex v c ps st :
  exists new, issued (fold_left (reward_participant li cid cindex v c) ps st) = issued st ++ new /\
    map fst new ⊆+ map (pair cid) ps.
Proof.
  revert st. induction ps as [|p ps IH]; intros st; simpl.
  - exists []. rewrite app_nil_r. split; [done|apply submseteq_nil_l].
  - destruct (reward_participant_paid li cid cindex v c st p) as (n1 & I1 & S1).
    destruct (IH (reward_participant li cid cindex v c st p)) as (n2 & I2 & S2).
    exists (n1 ++ n2). rewrite I2, I1, app_assoc. split; [done|].
    rewrite map_app. change ((cid, p) :: map (pair cid) ps) with ([(cid, p)] ++ map (pair cid) ps).
    apply submseteq_app; done.
Qed.

Lemma reward_meetups_paid li cid cindex ms st :
  exists new,
    issued (fold_left (fun st m => reward_meetup li st cid cindex m) ms st) = issued st ++ new /\
    map fst new ⊆+ map (pair cid) (concat (map (get_meetup_registry st (cid, cindex)) ms)).
Proof.
  revert st. induction ms as [|m ms IH]; intros st; simpl.
  - exists []. rewrite app_nil_r. split; [done|apply submseteq_nil_l].
  - set (st1 := reward_meetup li st cid cindex m).
    assert (Hreg : meetup_registry st1 = meetup_registry st).
    { pose proof (reward_meetup_non_reward li st cid cindex m) as Hf.
      unfold non_reward_fields in Hf. injection Hf. done. }
    assert (H1 : exists n1, issued st1 = issued st ++ n1 /\
                   map fst n1 ⊆+ map (pair cid) (get_meetup_registry st (cid, cindex) m)).
    { subst st1. unfold reward_meetup.
      destruct (ballot_meetup_n_votes _ _ _ _) as [[n c]|].
      - apply reward_fold_paid.
      - exists []. rewrite app_nil_r. split; [done|apply submseteq_nil_l]. }
    destruct H1 as (n1 & I1 & S1).
    destruct (IH st1) as (n2 & I2 & S2).
    exists (n1 ++ n2). rewrite I2, I1, app_assoc. split; [done|].
    rewrite map_app, map_app. apply submseteq_app; [done|].
    unfold get_meetup_registry in S2 |- *. rewrite Hreg in S2. done.
Qed.

Lemma NoDup_concat_tagged {B} (l : list CurrencyIdentifier) (f : CurrencyIdentifier -> list B) :
  NoDup l -> (forall x, In x l -> NoDup (f x)) ->
  NoDup (concat (map (fun x => map (pair x) (f x)) l)).
Proof.
  induction l as [|x l IH]; intros Hl Hf; simpl; [constructor|].
  apply NoDup_cons in Hl as [Hx Hl].
  apply NoDup_app. split; [|split].
  - apply NoDup_ListNoDup. apply NoDup_map_in; [intros a b _ _ [=]; done|].
    apply NoDup_ListNoDup. apply Hf. left. done.
  - intros [y b] Hin1 Hin2.
    apply list_elem_of_In, in_map_iff in Hin1 as (b1 & [= <- _] & _).
    apply list_elem_of_In, in_concat in Hin2 as (m & Hm & Hin2).
    apply in_map_iff in Hm as (x' & <- & Hx').
    apply in_map_iff in Hin2 as (b2 & [= -> _] & _).
    apply Hx. apply list_elem_of_In. done.
  - apply IH; [done|]. intros y Hy. apply Hf. right. done.
Qed.

(** In one reward round, if the communities are distinct and the
    members of each community's meetups (of the previous ceremony,
    concatenated) are distinct, no account is paid twice in the same
    community: the issuances appended to the record name distinct
    (community, account) pairs. *)
Theorem issue_rewards_pays_once li (env : Env) (st : State) :
  let k := u32_sub (current_ceremony_index env) 1 in
  NoDup (currency_identifiers env) ->
  (forall cid, In cid (currency_identifiers env) ->
     NoDup (concat (map (get_meetup_registry st (cid, k)) (range_incl (get_meetup_count st (cid, k)))))) ->
  exists new, issued (issue_rewards li env st) = issued st ++ new /\ NoDup (map fst new).
Proof.
  intros k Hcids Hms. unfold issue_rewards. case_decide.
  { exists []. rewrite app_nil_r. split; [done|constructor]. }
  fold k.
  assert (Hall : forall l st0, meetup_registry st0 = meetup_registry st ->
    meetup_count st0 = meetup_count st ->
    exists new,
      issued (fold_left (fun st cid =>
         fold_left (fun st m => reward_meetup li st cid k m)
           (range_incl (get_meetup_count st (cid, k))) st) l st0) = issued st0 ++ new /\
      map fst new ⊆+ concat (map (fun cid => map (pair cid)
         (concat (map (get_meetup_registry st (cid, k)) (range_incl (get_meetup_count st (cid, k)))))) l)).
  { intros l. induction l as [|cid l IH]; intros st0 Hr Hc; simpl.
    - exists []. rewrite app_nil_r. split; [done|apply submseteq_nil_l].
    - destruct (reward_meetups_paid li cid k (range_incl (get_meetup_count st0 (cid, k))) st0)
        as (n1 & I1 & S1).
      set (st1 := fold_left _ _ st0).
      assert (I1' : issued st1 = issued st0 ++ n1) by exact I1. clear I1.
      assert (Hf : non_reward_fields st1 = non_reward_fields st0) by apply reward_meetups_non_reward.
      unfold non_reward_fields in Hf. injection Hf as _ _ _ Hr1 _ Hc1.
      destruct (IH st1) as (n2 & I2 & S2); [congruence|congruence|].
      exists (n1 ++ n2). rewrite I2, I1', app_assoc. split; [done|].
      rewrite map_app. apply submseteq_app; [|done].
      unfold get_meetup_registry, get_meetup_count in S1 |- *. rewrite Hr, Hc in S1. done. }
  destruct (Hall (currency_identifiers env) st eq_refl eq_refl) as (new & Hi & Hs).
  exists new. split; [done|].
  eapply submseteq_NoDup_l; [exact Hs|].
  apply NoDup_concat_tagged; done.
Qed.

(** ** Witnesses and counterexamples *)

(** C1 counterexample: in a meetup of three whose members all vote 5 and
    attest each other, member 1 is paid with 2 witnesses, fewer than the
    winning value minus one (4). *)
Lemma reward_paid_below_value_threshold :
  In (0%nat, 1%nat, 1) (issued (reward_meetup issue_any st_three_mutual 0%nat 0 1)) /\
  ballot_meetup_n_votes st_three_mutual 0%nat 0 1 = Some (5, 3) /\
  Z.of_nat (length (bundle_of st_three_mutual (0%nat, 0) 1%nat)) < 5 - 1.
Proof. vm_compute. split; [auto|]. split; reflexivity. Qed.

(** C2 witness: the tie-break theorem at meetup 1 of [st_tie]. *)
Lemma ballot_tie_witness :
  ballot_meetup_n_votes st_tie 0%nat 0 1 = Some (4, 3) /\
  (exists pre mid post,
     first_seen (meetup_votes st_tie (0%nat, 0) (get_meetup_registry st_tie (0%nat, 0) 1))
     = pre ++ 5 :: mid ++ 4 :: post).
Proof.
  split; [vm_compute; reflexivity|].
  apply (ballot_tie_goes_to_latest_first_seen st_tie 0%nat 0 1 4 3).
  - vm_compute. reflexivity.
  - vm_compute. left. reflexivity.
  - discriminate.
  - vm_compute. reflexivity.
Defined.

(** C2 counterexample: members 1 to 6 vote 5, 5, 5, 4, 4, 4; the buckets
    of 5 and 4 tie at 3 votes, 5 is encountered first, and the ballot
    returns 4. *)
Lemma ballot_tie_not_first_encountered :
  meetup_votes st_tie (0%nat, 0) (get_meetup_registry st_tie (0%nat, 0) 1) = [5; 5; 5; 4; 4; 4] /\
  first_seen (meetup_votes st_tie (0%nat, 0) (get_meetup_registry st_tie (0%nat, 0) 1)) = [5; 4] /\
  ballot_meetup_n_votes st_tie 0%nat 0 1 = Some (4, 3).
Proof. vm_compute. repeat split. Qed.

(** C10 witness: member 1 submits member 2's attestation twice. *)
Lemma register_attestations_duplicates_witness :
  exists st',
    register_attestations verify_any geo_any distance_zero moment_zero env_attesting st_meetup_123
      1%nat (repeat attestation_2_for_1 2) = Ok st' /\
    bundle_of st' (0%nat, 1) 1%nat = repeat 2%nat 2 /\
    get_meetup_participant_count_vote st' (0%nat, 1) 1%nat = 3 /\
    length (bundle_of st' (0%nat, 1) 1%nat) = 2%nat /\
    count_reciprocating st' (0%nat, 1) 1%nat (bundle_of st' (0%nat, 1) 1%nat) =
      (if contains (bundle_of st' (0%nat, 1) 2%nat) 1%nat then 2%nat else 0%nat).
Proof.
  apply (register_attestations_keeps_duplicates verify_any geo_any distance_zero moment_zero
           env_attesting st_meetup_123 1%nat attestation_2_for_1 2%nat (0, 0) 0);
    vm_compute; try reflexivity; try lia.
Defined.

(** C3 witness: nine reputables and three newbies. *)
Lemma assign_meetups_cid_newbies_witness :
  exists n_meetups ms, assign_meetups_cid (seq 1 9) [10; 11; 12]%nat = Some (n_meetups, ms) /\
    (length (List.filter (fun x => contains [10; 11; 12]%nat x) (concat ms)) <= length (seq 1 9) / 3)%nat.
Proof.
  apply assign_meetups_cid_newbies_le_third.
  intros x Hx Hy. apply in_seq in Hx. simpl in Hy. lia.
Defined.

(** C3 counterexample: the hook run on nine reputables (accounts 1 to 9)
    and three newbies (accounts 10 to 12) stores one meetup holding all
    three newbies, more than [9 / 4 = 2]. *)
Lemma assign_places_more_than_quarter :
  split_participants env_assigning st_registered 0%nat 1 = (seq 1 9, [10; 11; 12]%nat) /\
  option_map (fun st' => meetup_registry st' !! ((0%nat, 1), 1))
    (assign_meetups env_assigning st_registered) = Some (Some (seq 1 12)) /\
  length (List.filter (fun x => contains [10; 11; 12]%nat x) (seq 1 12)) = 3%nat /\
  (9 / 4 = 2)%nat.
Proof. vm_compute. repeat split. Qed.

(** C4 witness: the hook on twelve registered participants. *)
Lemma assign_meetups_three_witness :
  exists st', assign_meetups env_assigning st_registered = Some st' /\
    forall cid, In cid (currency_identifiers env_assigning) ->
      let cc := (cid, current_ceremony_index env_assigning) in
      (forall j m, meetup_registry st' !! (cc, j) = Some m -> (3 <= length m)%nat) /\
      (forall a j, meetup_index st' !! (cc, a) = Some j ->
         exists m, meetup_registry st' !! (cc, j) = Some m /\ In a m).
Proof.
  apply assign_meetups_stored_meetups_have_three.
  - simpl. repeat constructor. set_solver.
  - intros cid _. split; intros; apply lookup_empty.
Defined.

(** C5 witness: the same run. *)
Lemma assign_meetups_count_witness :
  exists st', assign_meetups env_assigning st_registered = Some st' /\
    forall cid, In cid (currency_identifiers env_assigning) ->
      let cc := (cid, current_ceremony_index env_assigning) in
      (exists N, 1 <= N /\ meetup_count st' !! cc = Some N /\
         forall j, is_Some (meetup_registry st' !! (cc, j)) <-> 1 <= j <= N) \/
      (meetup_count st' !! cc = meetup_count st_registered !! cc /\ no_meetups_at st' cc).
Proof.
  apply assign_meetups_count_matches_stored.
  - simpl. repeat constructor. set_solver.
  - intros cid _. split; intros; apply lookup_empty.
Defined.

(** C6 witness: account 7 registers with account 3's proof. *)
Lemma register_participant_with_proof_witness :
  exists st', register_participant verify_any env_registering st_verified_3 7%nat 0%nat
                (Some (proof_of_3 7%nat)) = Ok st' /\
    participant_reputation st' !! ((0%nat, 0), 3%nat) = Some VerifiedLinked /\
    participant_reputation st' !! ((0%nat, 1), 7%nat) = Some UnverifiedReputable.
Proof.
  pose proof (register_participant_with_proof_iff verify_any env_registering st_verified_3
                7%nat 0%nat (proof_of_3 7%nat) ltac:(reflexivity) ltac:(reflexivity)
                ltac:(vm_compute; reflexivity) ltac:(vm_compute; reflexivity)
                ltac:(simpl; lia) ltac:(vm_compute; reflexivity)) as [Hok _].
  eexists. split.
  - apply Hok. vm_compute. repeat split. discriminate.
  - vm_compute. split; reflexivity.
Defined.

(** C7 witness: account 7 consumes account 3's proof; account 8 then
    fails to register with a proof of the same entry. *)
Lemma consumed_proof_witness :
  exists st1, register_participant verify_any env_registering st_verified_3 7%nat 0%nat
                (Some (proof_of_3 7%nat)) = Ok st1 /\
    participant_reputation st1 !! ((0%nat, 0), 3%nat) = Some VerifiedLinked /\
    exists e, register_participant verify_any env_registering st1 8%nat 0%nat
                (Some (proof_of_3 8%nat)) = Err e.
Proof.
  destruct (register_participant verify_any env_registering st_verified_3 7%nat 0%nat
              (Some (proof_of_3 7%nat))) as [st1|e] eqn:H;
    [|vm_compute in H; discriminate].
  exists st1. split; [reflexivity|].
  destruct (consumed_proof_not_reusable verify_any geo_any distance_zero moment_zero
              env_registering st_verified_3 7%nat 0%nat (proof_of_3 7%nat) st1 H) as [Hl Hr].
  split; [exact Hl|].
  apply (Hr [] 8%nat 0%nat (proof_of_3 8%nat)); [constructor | reflexivity..].
Defined.

(** C7 counterexample: account 7 consumes account 3's proof, the
    ceremony master (99) grants account 3 a [VerifiedUnlinked] reputation
    for ceremony 0 again, and account 8 registers with a proof of the same
    entry: all three calls succeed. *)
Lemma proof_consumed_twice_after_grant :
  (execute verify_any geo_any distance_zero moment_zero env_registering st_verified_3
     [CallRegisterParticipant 7%nat 0%nat (Some (proof_of_3 7%nat));
      CallGrantReputation 99%nat 0%nat 3%nat;
      CallRegisterParticipant 8%nat 0%nat (Some (proof_of_3 8%nat))]).2 = [true; true; true].
Proof. vm_compute. reflexivity. Qed.

(** C8 witness: two buckets of two votes each in [st_split_4]. *)
Lemma small_winning_bucket_witness :
  sort_by_count_desc (tally_votes st_split_4 (0%nat, 0)
                        (get_meetup_registry st_split_4 (0%nat, 0) 1)) = [(4, 2); (5, 2)] /\
  2 < 3 /\
  reward_meetup issue_any st_split_4 0%nat 0 1 = st_split_4.
Proof.
  split; [vm_compute; reflexivity|]. split; [lia|].
  apply (reward_meetup_skips_small_winning_bucket issue_any st_split_4 0%nat 0 1 4 2 [(5, 2)]);
    [vm_compute; reflexivity | lia].
Defined.

(** ** Witnesses of the further properties *)

Lemma participants_consistent_empty cc : participants_consistent empty_state cc.
Proof.
  unfold participants_consistent, get_participant_count. simpl.
  rewrite lookup_empty. simpl. split; [lia|]. split.
  - intros i a. rewrite !lookup_empty. done.
  - intros i. rewrite lookup_empty. split; [intros []; done|lia].
Qed.

Lemma st_registered_consistent : participants_consistent st_registered (0%nat, 1).
Proof.
  unfold participants_consistent, get_participant_count, st_registered.
  cbn [participant_count participant_registry participant_index].
  rewrite lookup_singleton_eq. cbn [from_option id]. split; [lia|]. split.
  - intros i a.
    rewrite <- !elem_of_list_to_map
      by (apply (bool_decide_unpack _); vm_compute; exact I).
    rewrite !list_elem_of_In, !in_map_iff.
    split; intros (j & Hj & Hin); exists j; split; try done;
      injection Hj as <- <-; done.
  - intros i. split.
    + intros [a Ha]. apply elem_of_list_to_map_2, list_elem_of_In, in_map_iff in Ha
        as (j & Hj & Hin).
      injection Hj as <- _. apply in_seq in Hin. lia.
    + intros Hi. exists (Z.to_nat i).
      rewrite <- elem_of_list_to_map
        by (apply (bool_decide_unpack _); vm_compute; exact I).
      apply list_elem_of_In, in_map_iff. exists (Z.to_nat i). split.
      * f_equal. f_equal. lia.
      * apply in_seq. lia.
Qed.

Lemma st_meetup_123_attestations_consistent cc : attestations_consistent st_meetup_123 cc.
Proof.
  unfold attestations_consistent, get_attestation_count, st_meetup_123.
  cbn [attestation_count attestation_index].
  destruct (decide (cc = (0%nat, 1))) as [->|Hne].
  - rewrite lookup_singleton_eq. cbn [from_option id]. split; [unfold u64_modulus; lia|]. split.
    + intros a i [_ <-]%lookup_singleton_Some. lia.
    + intros a b i [[= ->] _]%lookup_singleton_Some [[= ->] _]%lookup_singleton_Some. done.
  - rewrite lookup_singleton_ne by congruence. cbn [from_option id].
    split; [unfold u64_modulus; lia|].
    split; [intros a i [[= <-] _]%lookup_singleton_Some; done|].
    intros a b i [[= <-] _]%lookup_singleton_Some. done.
Qed.

(** Witness: the empty storage is consistent, so every run from it keeps
    the participant registry consistent. *)
Lemma participants_consistent_preserved_witness :
  (forall cc, participants_consistent empty_state cc) /\
  (forall calls cc, participants_consistent
     (execute verify_any geo_any distance_zero moment_zero env_registering empty_state calls).1 cc) /\
  (forall phase st', on_ceremony_phase_change issue_any env_registering empty_state phase = Some st' ->
     forall cc, participants_consistent st' cc).
Proof.
  split; [exact participants_consistent_empty|].
  apply participants_consistent_preserved. exact participants_consistent_empty.
Defined.

(** Witness: account 7 registers for ceremony 1 of currency 0; after
    account 8 registers and the master grants account 7 a reputation,
    account 7 is refused a second registration with account 3's proof. *)
Lemma register_participant_twice_witness :
  exists st1, register_participant verify_any env_registering st_verified_3 7%nat 0%nat None = Ok st1 /\
    exists e, register_participant verify_any env_registering
                (execute verify_any geo_any distance_zero moment_zero env_registering st1
                   [CallRegisterParticipant 8%nat 0%nat None;
                    CallGrantReputation 99%nat 0%nat 7%nat]).1
                7%nat 0%nat (Some (proof_of_3 7%nat)) = Err e.
Proof.
  destruct (register_participant verify_any env_registering st_verified_3 7%nat 0%nat None)
    as [st1|e] eqn:H; [|vm_compute in H; discriminate].
  exists st1. split; [reflexivity|].
  exact (register_participant_twice_fails verify_any geo_any distance_zero moment_zero
           env_registering st_verified_3 st1 7%nat 0%nat None (Some (proof_of_3 7%nat))
           [CallRegisterParticipant 8%nat 0%nat None; CallGrantReputation 99%nat 0%nat 7%nat] H).
Defined.

(** Witness: the split of the twelve registered participants. *)
Lemma split_participants_registered_witness :
  split_participants env_assigning st_registered 0%nat 1 = (seq 1 9, [10; 11; 12]%nat) /\
  NoDup (seq 1 9 ++ [10; 11; 12]%nat) /\
  (forall a, In a (seq 1 9 ++ [10; 11; 12]%nat) <->
     is_Some (participant_index st_registered !! ((0%nat, 1), a))) /\
  (forall a, In a (seq 1 9) ->
     get_participant_reputation st_registered (0%nat, 1) a = UnverifiedReputable \/
     In a (bootstrappers env_assigning 0%nat)) /\
  (forall a, In a [10; 11; 12]%nat ->
     get_participant_reputation st_registered (0%nat, 1) a <> UnverifiedReputable /\
     ~ In a (bootstrappers env_assigning 0%nat)).
Proof.
  assert (Hs : split_participants env_assigning st_registered 0%nat 1 = (seq 1 9, [10; 11; 12]%nat))
    by (vm_compute; reflexivity).
  split; [exact Hs|].
  exact (split_participants_registered env_assigning st_registered 0%nat 1 (seq 1 9) [10; 11; 12]%nat
           st_registered_consistent Hs).
Defined.

(** Witness: the hook on the twelve registered participants. *)
Lemma assign_meetups_members_indexed_witness :
  exists st', assign_meetups env_assigning st_registered = Some st' /\
    forall cid, In cid (currency_identifiers env_assigning) ->
      let cc := (cid, current_ceremony_index env_assigning) in
      (forall j m a, meetup_registry st' !! (cc, j) = Some m -> In a m ->
         meetup_index st' !! (cc, a) = Some j /\ is_Some (participant_index st' !! (cc, a))) /\
      (forall j1 j2 m1 m2 a, meetup_registry st' !! (cc, j1) = Some m1 ->
         meetup_registry st' !! (cc, j2) = Some m2 -> In a m1 -> In a m2 -> j1 = j2).
Proof.
  apply assign_meetups_members_indexed.
  - apply NoDup_singleton.
  - intros cid [<-|[]]. split; [|exact st_registered_consistent].
    split; intros; simpl; apply lookup_empty.
Defined.

(** Witness: the attestation registry of [st_meetup_123] is consistent,
    so every run from it keeps it consistent. *)
Lemma attestations_consistent_preserved_witness :
  (forall cc, attestations_consistent st_meetup_123 cc) /\
  (forall calls cc, attestations_consistent
     (execute verify_any geo_any distance_zero moment_zero env_attesting st_meetup_123 calls).1 cc) /\
  (forall phase st', on_ceremony_phase_change issue_any env_attesting st_meetup_123 phase = Some st' ->
     forall cc, attestations_consistent st' cc).
Proof.
  split; [exact st_meetup_123_attestations_consistent|].
  apply attestations_consistent_preserved. exact st_meetup_123_attestations_consistent.
Defined.

(** Witness: member 1 submits member 2's attestation. *)
Lemma register_attestations_stores_accepted_witness :
  exists st', register_attestations verify_any geo_any distance_zero moment_zero env_attesting
                st_meetup_123 1%nat [attestation_2_for_1] = Ok st' /\
  exists a0 rest mlocation mtime,
    let cid := claim_currency_identifier (claim a0) in
    let cc := (cid, current_ceremony_index env_attesting) in
    let mi := get_meetup_index st_meetup_123 cc 1%nat in
    let ps := List.filter (fun x => negb (x =? 1)%nat) (get_meetup_registry st_meetup_123 cc mi) in
    let accepted := List.filter
      (attestation_accepted verify_any geo_any distance_zero st_meetup_123 cid
         (current_ceremony_index env_attesting) mi ps mlocation mtime) [attestation_2_for_1] in
    [attestation_2_for_1] = a0 :: rest /\
    get_meetup_location env_attesting cid mi = Some mlocation /\
    get_meetup_time moment_zero env_attesting cid mi = Some mtime /\
    accepted <> [] /\
    bundle_of st' cc 1%nat = rev (map public accepted) /\
    (forall a, last accepted = Some a ->
       get_meetup_participant_count_vote st' cc 1%nat = number_of_participants_confirmed (claim a)) /\
    (forall w, In w (bundle_of st' cc 1%nat) ->
       w <> 1%nat /\ In w (get_meetup_registry st_meetup_123 cc mi)).
Proof.
  destruct (register_attestations verify_any geo_any distance_zero moment_zero env_attesting
              st_meetup_123 1%nat [attestation_2_for_1]) as [st'|e] eqn:H;
    [|vm_compute in H; discriminate].
  exists st'. split; [reflexivity|].
  exact (register_attestations_stores_accepted verify_any geo_any distance_zero moment_zero
           env_attesting st_meetup_123 st' 1%nat [attestation_2_for_1] H).
Defined.

(** Witness: member 1's submission leaves member 2's bundle and vote. *)
Lemma register_attestations_keeps_others_witness :
  exists st', register_attestations verify_any geo_any distance_zero moment_zero env_attesting
                st_meetup_123 1%nat [attestation_2_for_1] = Ok st' /\
  forall cc b, b <> 1%nat ->
    bundle_of st' cc b = bundle_of st_meetup_123 cc b /\
    get_meetup_participant_count_vote st' cc b = get_meetup_participant_count_vote st_meetup_123 cc b.
Proof.
  destruct (register_attestations verify_any geo_any distance_zero moment_zero env_attesting
              st_meetup_123 1%nat [attestation_2_for_1]) as [st'|e] eqn:H;
    [|vm_compute in H; discriminate].
  exists st'. split; [reflexivity|].
  exact (register_attestations_keeps_others verify_any geo_any distance_zero moment_zero
           env_attesting st_meetup_123 st' 1%nat [attestation_2_for_1]
           st_meetup_123_attestations_consistent H).
Defined.

(** Witness: member 1's first submission. *)
Lemma register_attestations_count_witness :
  exists st', register_attestations verify_any geo_any distance_zero moment_zero env_attesting
                st_meetup_123 1%nat [attestation_2_for_1] = Ok st' /\
    let cc := (claim_currency_identifier (claim attestation_2_for_1),
               current_ceremony_index env_attesting) in
    (forall cc', cc' <> cc -> attestation_count st' !! cc' = attestation_count st_meetup_123 !! cc') /\
    match attestation_index st_meetup_123 !! (cc, 1%nat) with
    | Some i => attestation_index st' !! (cc, 1%nat) = Some i /\
                get_attestation_count st' cc = get_attestation_count st_meetup_123 cc
    | None => attestation_index st' !! (cc, 1%nat) = Some (get_attestation_count st_meetup_123 cc + 1) /\
              get_attestation_count st' cc = get_attestation_count st_meetup_123 cc + 1
    end.
Proof.
  destruct (register_attestations verify_any geo_any distance_zero moment_zero env_attesting
              st_meetup_123 1%nat [attestation_2_for_1]) as [st'|e] eqn:H;
    [|vm_compute in H; discriminate].
  exists st'. split; [reflexivity|].
  exact (register_attestations_count verify_any geo_any distance_zero moment_zero
           env_attesting st_meetup_123 st' 1%nat attestation_2_for_1 []
           st_meetup_123_attestations_consistent H).
Defined.

(** Witness: account 4, outside meetup 1, is refused. *)
Lemma register_attestations_unassigned_witness :
  meetup_index st_meetup_123 !! ((0%nat, 1), 4%nat) = None /\
  meetup_registry st_meetup_123 !! ((0%nat, 1), 0) = None /\
  exists e, register_attestations verify_any geo_any distance_zero moment_zero env_attesting
              st_meetup_123 4%nat [attestation_2_for_1] = Err e.
Proof.
  assert (H1 : meetup_index st_meetup_123 !! ((0%nat, 1), 4%nat) = None) by (vm_compute; reflexivity).
  assert (H2 : meetup_registry st_meetup_123 !! ((0%nat, 1), 0) = None) by (vm_compute; reflexivity).
  split; [exact H1|]. split; [exact H2|].
  exact (register_attestations_unassigned_fails verify_any geo_any distance_zero moment_zero
           env_attesting st_meetup_123 4%nat attestation_2_for_1 [] H1 H2).
Defined.

(** Witness: the reward round of ceremony 0 after meetup 1 of
    [st_three_mutual] (members 1, 2, 3). *)
Lemma issue_rewards_pays_once_witness :
  NoDup (currency_identifiers env_registering) /\
  exists new, issued (issue_rewards issue_any env_registering st_three_mutual) =
              issued st_three_mutual ++ new /\ NoDup (map fst new).
Proof.
  assert (Hc : NoDup (currency_identifiers env_registering)) by apply NoDup_singleton.
  split; [exact Hc|].
  apply (issue_rewards_pays_once issue_any env_registering st_three_mutual Hc).
  intros cid [<-|[]]. apply (bool_decide_unpack _). vm_compute. exact I.
Defined.
